(** * ApiEcoDuino: the greenhouse API of [server.js]

    A shallow embedding of the Express handlers of [server.js] that deal
    with greenhouses ("invernaderos"): provisioning, listing, telemetry
    ingest, history, control state and actuator update.  The handlers are
    written in a small state-and-exception monad over a model of the MySQL
    store; every [await] on the store may fail. *)

From Stdlib Require Import ZArith List String Bool Lia.
From Stdlib Require Import Sorting.Sorted Sorting.Permutation.
From Stdlib Require Import Floats.PrimFloat Floats.FloatOps Floats.SpecFloat.
From Stdlib Require Import DecimalString.
Import ListNotations.

Local Open Scope string_scope.
Local Open Scope Z_scope.

#[local] Set Warnings "-register-all".

(** ** JavaScript values *)

(** What a field of a parsed JSON body, a path parameter or a query
    parameter can hold.  [JUndefined] is an absent field. *)
Inductive jsval : Type :=
| JUndefined
| JNull
| JBool (b : bool)
| JNum (x : float)
| JStr (s : string)
| JArr (items : list jsval)
| JObj (fields : list (string * jsval)).

(** ECMAScript ToBoolean: [undefined], [null], [false], [+0], [-0], [NaN]
    and the empty string are falsy, everything else is truthy. *)
Definition truthy (v : jsval) : bool :=
  match v with
  | JUndefined | JNull => false
  | JBool b => b
  | JNum x => negb (PrimFloat.eqb x 0%float || PrimFloat.is_nan x)
  | JStr s => negb (String.eqb s "")
  | JArr _ | JObj _ => true
  end.

(** [v === undefined] *)
Definition is_undefined (v : jsval) : bool :=
  match v with JUndefined => true | _ => false end.

(** [req.body]: the own properties of the parsed object. *)
Definition object := list (string * jsval).

(** Property read [o.k], as the destructuring [const { k } = req.body]
    does it: an absent property reads as [undefined]. *)
Fixpoint prop (o : object) (k : string) : jsval :=
  match o with
  | [] => JUndefined
  | (k', v) :: rest => if String.eqb k' k then v else prop rest k
  end.

(** ECMAScript ToString throws a TypeError on an object that has a
    property [toString] of its own: in a value parsed from JSON that
    property is never a function, and [valueOf] gives back the object.  An
    array is joined from its items, so it throws when one of them does.
    Every other value converts. *)
Fixpoint ToString_throws (v : jsval) : bool :=
  match v with
  | JObj fields => existsb (fun kv => String.eqb (fst kv) "toString") fields
  | JArr items => existsb ToString_throws items
  | _ => false
  end.

(** ** What the handlers call but do not define

    The ECMAScript built-ins used by the handlers and the way the mysql2
    driver and the server read a bound parameter are not part of
    [server.js]; the handlers are verified for every behaviour of them. *)
Record runtime : Type := {
  (** ECMAScript ToString on a value that is not a string, where it does
      not throw *)
  ToString_other : jsval -> string;
  (** ECMAScript StringToNumber, the string case of [Number(v)] *)
  StringToNumber : string -> float;
  (** [parseInt(s)]: [None] when the result is NaN or infinite, else the
      integer it returns *)
  parseInt_string : string -> option Z;
  (** the value an integer column takes when the parameter is bound *)
  col_int : jsval -> Z;
  (** the value a text column takes when the parameter is bound *)
  col_text : jsval -> string;
  (** [int_column = ?] in a WHERE clause *)
  int_eq : Z -> jsval -> bool;
  (** [text_column = ?] in a WHERE clause *)
  text_eq : string -> jsval -> bool
}.

(** ** The store *)

(** Table [invernadero]; timestamps are seconds on the server clock. *)
Record invernadero_row : Type := {
  id_invernadero : Z;
  nombre_ubicacion : string;
  token_dispositivo : string;
  ultima_conexion : Z
}.

(** Table [estado_control]; the three flags are TINYINT columns, read back
    by the handler through [!!]. *)
Record estado_row : Type := {
  ec_id_invernadero : Z;
  luces_estado : Z;
  riego_estado : Z;
  ventilacion_estado : Z;
  ultima_actualizacion : option Z
}.

(** Table [usuario_invernadero]. *)
Record usuario_invernadero_row : Type := {
  id_usuario : Z;
  ui_id_invernadero : Z;
  rol : string
}.

(** Table [registro_sensores]. *)
Record registro_row : Type := {
  rs_id_invernadero : Z;
  fecha_hora : Z;
  temp_ambiente : float;
  humedad_ambiente : float;
  humedad_suelo : float
}.

Record db : Type := {
  invernadero : list invernadero_row;
  estado_control : list estado_row;
  usuario_invernadero : list usuario_invernadero_row;
  registro_sensores : list registro_row
}.

(** The error object a rejected query throws. *)
Record sqlerr : Type := { code : string; message : string }.

(** What the outside world contributes to one [await] on the store:
    whether the call fails (constraint violation, lost connection,
    timeout), the value of [NOW()], the [insertId] the server hands out if
    the statement inserts into an AUTO_INCREMENT table, and the order in
    which the server puts two rows that an ORDER BY does not tell
    apart. *)
Record event : Type := {
  fault : option sqlerr;
  now : Z;
  insert_id : Z;
  tie_invernadero : invernadero_row -> invernadero_row -> bool;
  tie_registro : registro_row -> registro_row -> bool
}.

Definition env := nat -> event.

(** A connection checked out of the pool: [Some d] while a transaction is
    open, [d] being its working copy of the store. *)
Definition session := option db.

Record world : Type := {
  store : db;                    (* the committed state, seen by everyone *)
  connection : option session;   (* the handler's [let connection;] *)
  leased : nat;                  (* connections checked out of the pool *)
  tick : nat                     (* how many awaits on the store so far *)
}.

Definition set_store (d : db) (w : world) : world :=
  {| store := d; connection := connection w; leased := leased w; tick := tick w |}.

Definition set_connection (c : option session) (w : world) : world :=
  {| store := store w; connection := c; leased := leased w; tick := tick w |}.

Definition set_leased (n : nat) (w : world) : world :=
  {| store := store w; connection := connection w; leased := n; tick := tick w |}.

Definition bump (w : world) : world :=
  {| store := store w; connection := connection w; leased := leased w; tick := S (tick w) |}.

(** ** The handler monad: state, exceptions, and the outside world *)

Inductive result (A : Type) : Type :=
| Ok (a : A)
| Throw (e : sqlerr).
Arguments Ok {A} a.
Arguments Throw {A} e.

Definition M (A : Type) : Type := env -> world -> result A * world.

Definition ret {A} (a : A) : M A := fun _ w => (Ok a, w).

Definition bind {A B} (m : M A) (k : A -> M B) : M B :=
  fun en w =>
    match m en w with
    | (Ok a, w') => k a en w'
    | (Throw e, w') => (Throw e, w')
    end.

Declare Scope handler_scope.
Delimit Scope handler_scope with handler.
Notation "x <- m ;; k" := (bind m (fun x => k))
  (at level 100, m at next level, right associativity) : handler_scope.
Notation "m ;; k" := (bind m (fun _ => k))
  (at level 100, right associativity) : handler_scope.
Local Open Scope handler_scope.

(** An expression evaluated by the handler itself: its value, or the
    error it throws. *)
Definition eval {A} (r : result A) : M A := fun _ w => (r, w).

(** [try { body } catch (error) { handler }] *)
Definition try_catch {A} (body : M A) (handler : sqlerr -> M A) : M A :=
  fun en w =>
    match body en w with
    | (Ok a, w') => (Ok a, w')
    | (Throw e, w') => handler e en w'
    end.

(** [... finally { fin }]: [fin] runs on every exit path. *)
Definition finally {A} (body : M A) (fin : M unit) : M A :=
  fun en w =>
    match body en w with
    | (r, w') =>
        match fin en w' with
        | (Ok _, w'') => (r, w'')
        | (Throw e, w'') => (Throw e, w'')
        end
    end.

(** One [await] on the store: it takes the next event of the outside
    world; a fault makes the call throw and leaves the state as it was. *)
Definition await {A} (f : event -> world -> result A * world) : M A :=
  fun en w =>
    let e := en (tick w) in
    let w1 := bump w in
    match fault e with
    | Some err => (Throw err, w1)
    | None => f e w1
    end.

(** The effect of one SQL statement on the state it runs against. *)
Definition stmt (A : Type) : Type := event -> db -> result (A * db).

(** [pool.query(sql, params)]: the statement runs on the committed state
    and commits on its own. *)
Definition pool_query {A} (s : stmt A) : M A :=
  await (fun e w =>
    match s e (store w) with
    | Ok (a, d) => (Ok a, set_store d w)
    | Throw err => (Throw err, w)
    end).

Definition TypeError : sqlerr :=
  {| code := "TypeError"; message := "Cannot read properties of undefined" |}.

Definition TypeError_primitive : sqlerr :=
  {| code := "TypeError"; message := "Cannot convert object to primitive value" |}.

(** [connection.query(sql, params)]: inside a transaction the statement
    runs on the working copy; outside one it commits on its own. *)
Definition conn_query {A} (s : stmt A) : M A :=
  await (fun e w =>
    match connection w with
    | None => (Throw TypeError, w)
    | Some (Some d) =>
        match s e d with
        | Ok (a, d') => (Ok a, set_connection (Some (Some d')) w)
        | Throw err => (Throw err, w)
        end
    | Some None =>
        match s e (store w) with
        | Ok (a, d') => (Ok a, set_store d' w)
        | Throw err => (Throw err, w)
        end
    end).

(** [connection = await pool.getConnection()] *)
Definition getConnection : M unit :=
  await (fun _ w => (Ok tt, set_leased (S (leased w)) (set_connection (Some None) w))).

(** [await connection.beginTransaction()] *)
Definition beginTransaction : M unit :=
  await (fun _ w =>
    match connection w with
    | None => (Throw TypeError, w)
    | Some _ => (Ok tt, set_connection (Some (Some (store w))) w)
    end).

(** [await connection.commit()]: the working copy becomes the committed
    state. *)
Definition commit : M unit :=
  await (fun _ w =>
    match connection w with
    | None => (Throw TypeError, w)
    | Some (Some d) => (Ok tt, set_connection (Some None) (set_store d w))
    | Some None => (Ok tt, w)
    end).

(** [await connection.rollback()]: the working copy is dropped. *)
Definition rollback : M unit :=
  await (fun _ w =>
    match connection w with
    | None => (Throw TypeError, w)
    | Some _ => (Ok tt, set_connection (Some None) w)
    end).

(** [connection.release()] *)
Definition release : M unit :=
  fun _ w => (Ok tt, set_leased (Nat.pred (leased w)) w).

(** [if (connection) ...] in the catch and finally blocks. *)
Definition if_connection (m : M unit) : M unit :=
  fun en w =>
    match connection w with
    | Some _ => m en w
    | None => (Ok tt, w)
    end.

(** ** Responses *)

(** The columns the history query selects from [registro_sensores]. *)
Record lectura : Type := {
  l_fecha_hora : Z;
  l_temp_ambiente : float;
  l_humedad_ambiente : float;
  l_humedad_suelo : float
}.

Inductive json_body : Type :=
| Message (m : string)
| Error (e : string)
| ErrorDetails (e : string) (details : string)
| Creado (m : string) (invernaderoId : Z)
| Invernaderos (rows : list invernadero_row)
| Lecturas (rows : list lectura)
| Estado (luces riego ventilacion : bool)
| Actualizado (actuador estado : jsval).

Record response : Type := { status : Z; json : json_body }.

(** [res.status(s).json(b)] *)
Definition res_status_json (s : Z) (b : json_body) : response :=
  {| status := s; json := b |}.

(** ** ORDER BY *)

Fixpoint insert_by {A} (le : A -> A -> bool) (x : A) (l : list A) : list A :=
  match l with
  | [] => [x]
  | y :: t => if le x y then x :: y :: t else y :: insert_by le x t
  end.

(** Insertion sort by [le], which says when a row may stand before
    another; for rows the ORDER BY clause does not tell apart, [le] is
    where the server's choice comes in. *)
Definition order_by {A} (le : A -> A -> bool) (l : list A) : list A :=
  fold_right (insert_by le) [] l.

(** ** The SQL statements of [server.js] *)

Inductive campo : Type := luces_campo | riego_campo | ventilacion_campo.

Definition get_campo (c : campo) (r : estado_row) : Z :=
  match c with
  | luces_campo => luces_estado r
  | riego_campo => riego_estado r
  | ventilacion_campo => ventilacion_estado r
  end.

(** [SET <campo> = v, ultima_actualizacion = t] on one row. *)
Definition set_campo (c : campo) (v : Z) (t : Z) (r : estado_row) : estado_row :=
  {| ec_id_invernadero := ec_id_invernadero r;
     luces_estado := match c with luces_campo => v | _ => luces_estado r end;
     riego_estado := match c with riego_campo => v | _ => riego_estado r end;
     ventilacion_estado :=
       match c with ventilacion_campo => v | _ => ventilacion_estado r end;
     ultima_actualizacion := Some t |}.

Definition ER_PARSE_ERROR : sqlerr :=
  {| code := "ER_PARSE_ERROR"; message := "You have an error in your SQL syntax" |}.

Definition ER_BAD_FIELD_ERROR : sqlerr :=
  {| code := "ER_BAD_FIELD_ERROR"; message := "Unknown column in 'field list'" |}.

(** [ORDER BY key DESC]: a row goes before another when its key is
    greater; between rows of equal key the server decides. *)
Definition desc_with {A} (key : A -> Z) (tie : A -> A -> bool) (a b : A) : bool :=
  (key b <? key a) || ((key a =? key b) && tie a b).

(** [ORDER BY I.id_invernadero ASC] *)
Definition le_id (tie : invernadero_row -> invernadero_row -> bool)
    (a b : invernadero_row) : bool :=
  desc_with (fun r => - id_invernadero r) tie a b.

(** [ORDER BY fecha_hora DESC] *)
Definition ge_fecha (tie : registro_row -> registro_row -> bool)
    (a b : registro_row) : bool :=
  desc_with fecha_hora tie a b.

Definition lectura_of (r : registro_row) : lectura :=
  {| l_fecha_hora := fecha_hora r;
     l_temp_ambiente := temp_ambiente r;
     l_humedad_ambiente := humedad_ambiente r;
     l_humedad_suelo := humedad_suelo r |}.

Section Handlers.

Variable rt : runtime.

(** ECMAScript ToString, where it does not throw. *)
Definition to_string (v : jsval) : string :=
  match v with
  | JStr s => s
  | _ => ToString_other rt v
  end.

(** The value of [Number(v)].  An object or an array is converted
    through its string; where that conversion throws there is no value,
    and NaN stands for it here. *)
Definition Number (v : jsval) : float :=
  match v with
  | JUndefined => nan
  | JNull => 0%float
  | JBool b => if b then 1%float else 0%float
  | JNum x => x
  | JStr s => StringToNumber rt s
  | JArr _ | JObj _ =>
      if ToString_throws v then nan else StringToNumber rt (ToString_other rt v)
  end.

(** [Number(v)] as the handler evaluates it: it throws where the
    conversion does. *)
Definition Number_call (v : jsval) : result float :=
  if ToString_throws v then Throw TypeError_primitive else Ok (Number v).

(** [parseInt(v)]: it converts its argument to a string first. *)
Definition parseInt (v : jsval) : result (option Z) :=
  if ToString_throws v then Throw TypeError_primitive
  else Ok (parseInt_string rt (to_string v)).

(** [SELECT id_invernadero FROM invernadero WHERE token_dispositivo = ?] *)
Definition select_id_by_token (token : jsval) : stmt (list Z) :=
  fun _ d =>
    Ok (map id_invernadero
          (filter (fun r => text_eq rt (token_dispositivo r) token) (invernadero d)),
        d).

(** [INSERT INTO invernadero (nombre_ubicacion, token_dispositivo,
    ultima_conexion) VALUES (?, ?, NOW())]; the result is [insertId]. *)
Definition insert_invernadero (nombre token : jsval) : stmt Z :=
  fun e d =>
    Ok (insert_id e,
        {| invernadero :=
             invernadero d ++
             [{| id_invernadero := insert_id e;
                 nombre_ubicacion := col_text rt nombre;
                 token_dispositivo := col_text rt token;
                 ultima_conexion := now e |}];
           estado_control := estado_control d;
           usuario_invernadero := usuario_invernadero d;
           registro_sensores := registro_sensores d |}).

(** [INSERT INTO estado_control (id_invernadero, luces_estado,
    riego_estado, ventilacion_estado) VALUES (?, 0, 0, 0)] *)
Definition insert_estado_control (id : Z) : stmt unit :=
  fun _ d =>
    Ok (tt,
        {| invernadero := invernadero d;
           estado_control :=
             estado_control d ++
             [{| ec_id_invernadero := id;
                 luces_estado := 0;
                 riego_estado := 0;
                 ventilacion_estado := 0;
                 ultima_actualizacion := None |}];
           usuario_invernadero := usuario_invernadero d;
           registro_sensores := registro_sensores d |}).

(** [INSERT INTO usuario_invernadero (id_usuario, id_invernadero, rol)
    VALUES (?, ?, ?)] *)
Definition insert_usuario_invernadero (userId : jsval) (id : Z) (r : string)
  : stmt unit :=
  fun _ d =>
    Ok (tt,
        {| invernadero := invernadero d;
           estado_control := estado_control d;
           usuario_invernadero :=
             usuario_invernadero d ++
             [{| id_usuario := col_int rt userId;
                 ui_id_invernadero := id;
                 rol := r |}];
           registro_sensores := registro_sensores d |}).

(** The rows of [invernadero I JOIN usuario_invernadero UI ON
    I.id_invernadero = UI.id_invernadero WHERE UI.id_usuario = ?]: one
    copy of [I] for each matching [UI]. *)
Definition join_user (userId : jsval) (d : db) : list invernadero_row :=
  flat_map
    (fun i =>
       map (fun _ => i)
         (filter
            (fun u =>
               (id_invernadero i =? ui_id_invernadero u)
               && int_eq rt (id_usuario u) userId)
            (usuario_invernadero d)))
    (invernadero d).

(** [SELECT I.id_invernadero, I.nombre_ubicacion, I.token_dispositivo,
    I.ultima_conexion FROM invernadero I JOIN usuario_invernadero UI ON ...
    WHERE UI.id_usuario = ? ORDER BY I.id_invernadero ASC] *)
Definition select_invernaderos_by_user (userId : jsval)
  : stmt (list invernadero_row) :=
  fun e d => Ok (order_by (le_id (tie_invernadero e)) (join_user userId d), d).

(** [INSERT INTO registro_sensores (id_invernadero, fecha_hora,
    temp_ambiente, humedad_ambiente, humedad_suelo) VALUES (?, NOW(), ?,
    ?, ?)].  The driver writes a number that is not finite as [NaN] or
    [Infinity], which the server rejects. *)
Definition insert_registro (id : Z) (temp hum suelo : float) : stmt unit :=
  fun e d =>
    if is_finite temp && is_finite hum && is_finite suelo then
      Ok (tt,
          {| invernadero := invernadero d;
             estado_control := estado_control d;
             usuario_invernadero := usuario_invernadero d;
             registro_sensores :=
               registro_sensores d ++
               [{| rs_id_invernadero := id;
                   fecha_hora := now e;
                   temp_ambiente := temp;
                   humedad_ambiente := hum;
                   humedad_suelo := suelo |}] |})
    else Throw ER_BAD_FIELD_ERROR.

Definition touch (id : Z) (t : Z) (r : invernadero_row) : invernadero_row :=
  if id_invernadero r =? id then
    {| id_invernadero := id_invernadero r;
       nombre_ubicacion := nombre_ubicacion r;
       token_dispositivo := token_dispositivo r;
       ultima_conexion := t |}
  else r.

(** [UPDATE invernadero SET ultima_conexion = NOW() WHERE id_invernadero
    = ?] *)
Definition update_ultima_conexion (id : Z) : stmt unit :=
  fun e d =>
    Ok (tt,
        {| invernadero := map (touch id (now e)) (invernadero d);
           estado_control := estado_control d;
           usuario_invernadero := usuario_invernadero d;
           registro_sensores := registro_sensores d |}).

(** The readings of a device, most recent first, as one statement gets
    them: [FROM registro_sensores WHERE id_invernadero = ? ORDER BY
    fecha_hora DESC]. *)
Definition readings_desc (e : event) (id : jsval) (d : db) : list registro_row :=
  order_by (ge_fecha (tie_registro e))
    (filter (fun r => int_eq rt (rs_id_invernadero r) id) (registro_sensores d)).

(** [SELECT fecha_hora, temp_ambiente, humedad_ambiente, humedad_suelo
    FROM registro_sensores WHERE id_invernadero = ? ORDER BY fecha_hora
    DESC LIMIT ?].  The driver writes the limit into the statement as
    JavaScript prints it: NaN and a negative number are syntax errors.
    Whether the server takes a number too large for it is the outside
    world's to say, as a fault of the call. *)
Definition select_historico (id : jsval) (limit : option Z) : stmt (list lectura) :=
  fun e d =>
    match limit with
    | None => Throw ER_PARSE_ERROR
    | Some n =>
        if n <? 0 then Throw ER_PARSE_ERROR
        else Ok (map lectura_of (firstn (Z.to_nat n) (readings_desc e id d)), d)
    end.

(** [SELECT luces_estado, riego_estado, ventilacion_estado FROM
    estado_control WHERE id_invernadero = ?] *)
Definition select_estado (id : Z) : stmt (list estado_row) :=
  fun _ d =>
    Ok (filter (fun r => ec_id_invernadero r =? id) (estado_control d), d).

(** [UPDATE ESTADO_CONTROL SET <campo> = ?, ultima_actualizacion = NOW()
    WHERE id_invernadero = ?], on a server that does not distinguish the
    case of table names.  A statement that matches no row succeeds. *)
Definition update_estado (c : campo) (estado id : jsval) : stmt unit :=
  fun e d =>
    Ok (tt,
        {| invernadero := invernadero d;
           estado_control :=
             map (fun r =>
                    if int_eq rt (ec_id_invernadero r) id
                    then set_campo c (col_int rt estado) (now e) r
                    else r)
                 (estado_control d);
           usuario_invernadero := usuario_invernadero d;
           registro_sensores := registro_sensores d |}).

(** The same UPDATE when the text spliced in for the column is not a
    column name: the server rejects the statement. *)
Definition update_estado_malformed : stmt unit :=
  fun _ _ => Throw ER_PARSE_ERROR.

(** ** The handlers *)

(** [let connection;] *)
Definition let_connection : M unit :=
  fun _ w => (Ok tt, set_connection None w).

(** POST /api/invernaderos/crear *)
Definition crear (body : object) : M response :=
  let userId := prop body "userId" in
  let nombreUbicacion := prop body "nombreUbicacion" in
  let tokenDispositivo := prop body "tokenDispositivo" in
  let_connection ;;
  if negb (truthy userId) || negb (truthy nombreUbicacion)
     || negb (truthy tokenDispositivo)
  then
    ret (res_status_json 400
           (Message "Datos incompletos: userId, nombreUbicacion y tokenDispositivo son requeridos."))
  else
    finally
      (try_catch
         (getConnection ;;
          beginTransaction ;;
          existingInv <- conn_query (select_id_by_token tokenDispositivo) ;;
          if (0 <? List.length existingInv)%nat then
            rollback ;;
            ret (res_status_json 409
                   (Message "El token del dispositivo ya está asignado a otro invernadero."))
          else
            newInvId <- conn_query (insert_invernadero nombreUbicacion tokenDispositivo) ;;
            conn_query (insert_estado_control newInvId) ;;
            conn_query (insert_usuario_invernadero userId newInvId "admin") ;;
            commit ;;
            ret (res_status_json 201
                   (Creado "Invernadero creado y asignado con éxito." newInvId)))
         (fun error =>
            if_connection rollback ;;
            ret (res_status_json 500
                   (Message "Error interno del servidor al crear el invernadero."))))
      (if_connection release).

(** GET /api/invernaderos/user/:userId *)
Definition invernaderos_user (userId : string) : M response :=
  if negb (truthy (JStr userId)) then
    ret (res_status_json 400 (Error "El ID del usuario es requerido."))
  else
    try_catch
      (invernaderos <- pool_query (select_invernaderos_by_user (JStr userId)) ;;
       ret (res_status_json 200 (Invernaderos invernaderos)))
      (fun error =>
         ret (res_status_json 500
                (Error "Error interno del servidor al consultar la base de datos."))).

(** POST /api/data/ingresar.  The three calls of [Number] are made inside
    the [try], after the lookup of the token and before the INSERT is
    sent. *)
Definition ingresar (body : object) : M response :=
  let token := prop body "token" in
  let tempAmbiente := prop body "tempAmbiente" in
  let humAmbiente := prop body "humAmbiente" in
  let humedadSuelo := prop body "humedadSuelo" in
  if negb (truthy token) || is_undefined humedadSuelo
     || is_undefined tempAmbiente || is_undefined humAmbiente
  then
    ret (res_status_json 400 (Error "Datos incompletos o inválidos."))
  else
    try_catch
      (invernaderos <- pool_query (select_id_by_token token) ;;
       match invernaderos with
       | [] =>
           ret (res_status_json 401 (Error "Token de dispositivo no autorizado."))
       | id_inv :: _ =>
           temp <- eval (Number_call tempAmbiente) ;;
           hum <- eval (Number_call humAmbiente) ;;
           suelo <- eval (Number_call humedadSuelo) ;;
           pool_query (insert_registro id_inv temp hum suelo) ;;
           pool_query (update_ultima_conexion id_inv) ;;
           ret (res_status_json 201
                  (Message "Datos recibidos y guardados correctamente."))
       end)
      (fun error =>
         ret (res_status_json 500
                (ErrorDetails "Error interno del servidor." (message error)))).

(** [req.query.limit ? parseInt(req.query.limit) : 50] *)
Definition limit_of (query_limit : jsval) : result (option Z) :=
  if truthy query_limit then parseInt query_limit else Ok (Some 50).

(** GET /api/data/historico/:id_inv *)
Definition historico (id_inv : string) (query_limit : jsval) : M response :=
  limit <- eval (limit_of query_limit) ;;
  try_catch
    (registros <- pool_query (select_historico (JStr id_inv) limit) ;;
     if (List.length registros =? 0)%nat then
       ret (res_status_json 404 (Message "No se encontraron datos históricos."))
     else
       ret (res_status_json 200 (Lecturas registros)))
    (fun error =>
       ret (res_status_json 500
              (Error "Error interno del servidor al consultar la base de datos."))).

(** [!!v] on a TINYINT column value *)
Definition flag (v : Z) : bool := negb (v =? 0).

(** GET /api/control/estado/:token *)
Definition estado (token : string) : M response :=
  try_catch
    (invernaderos <- pool_query (select_id_by_token (JStr token)) ;;
     match invernaderos with
     | [] =>
         ret (res_status_json 401 (Error "Token de dispositivo no encontrado."))
     | id_inv :: _ =>
         est <- pool_query (select_estado id_inv) ;;
         match est with
         | [] =>
             ret (res_status_json 404 (Error "Estado de control no inicializado."))
         | e0 :: _ =>
             ret (res_status_json 200
                    (Estado (flag (luces_estado e0)) (flag (riego_estado e0))
                       (flag (ventilacion_estado e0))))
         end
     end)
    (fun error => ret (res_status_json 500 (Error "Error interno del servidor."))).

(** What [{ luces: ..., riego: ..., ventilacion: ... }[actuador]] reads:
    one of the three own properties, a property inherited from
    [Object.prototype] (a function or an object, hence truthy), or
    [undefined]; or the conversion of [actuador] to a property key
    throws. *)
Inductive lookup : Type :=
| Column (c : campo)
| Inherited
| Absent
| Raises.

Definition Object_prototype_keys : list string :=
  [ "constructor"; "hasOwnProperty"; "isPrototypeOf"; "propertyIsEnumerable";
    "toLocaleString"; "toString"; "valueOf"; "__proto__";
    "__defineGetter__"; "__defineSetter__"; "__lookupGetter__";
    "__lookupSetter__" ].

Definition actuadorCampo (actuador : jsval) : lookup :=
  let k := to_string actuador in
  if ToString_throws actuador then Raises
  else if String.eqb k "luces" then Column luces_campo
  else if String.eqb k "riego" then Column riego_campo
  else if String.eqb k "ventilacion" then Column ventilacion_campo
  else if existsb (String.eqb k) Object_prototype_keys then Inherited
  else Absent.

(** PUT /api/control/actualizar/:id_inv.  The lookup of the column is
    made before the [try]; the message of the answer is built inside it,
    from [actuador] and [estado] converted to strings. *)
Definition actualizar (id_inv : string) (body : object) : M response :=
  let actuador := prop body "actuador" in
  let estado := prop body "estado" in
  if negb (truthy actuador) || is_undefined estado then
    ret (res_status_json 400 (Error "Actuador o estado no especificado."))
  else
    match actuadorCampo actuador with
    | Raises => eval (Throw TypeError_primitive)
    | Absent => ret (res_status_json 400 (Error "Actuador inválido."))
    | found =>
        try_catch
          (pool_query
             match found with
             | Column c => update_estado c estado (JStr id_inv)
             | _ => update_estado_malformed
             end ;;
           if ToString_throws estado then eval (Throw TypeError_primitive)
           else ret (res_status_json 200 (Actualizado actuador estado)))
          (fun error =>
             ret (res_status_json 500
                    (Error "Error al actualizar el estado de control.")))
    end.

End Handlers.

(** ** The other routes of [server.js]

    The latest-reading query, and the two routes of the users table with
    the bcryptjs calls they make.  [GET /] answers a constant and
    [app.listen] starts the server; neither touches the store. *)

(** Table [usuarios]. *)
Record usuario_row : Type := {
  u_id_usuario : Z;
  nombre : string;
  email : string;
  password_hash : string
}.

(** bcryptjs, which [server.js] requires.  A call may reject (it does on
    an argument that is not a string); the salt is drawn at random, here
    from the number of awaits made so far. *)
Record bcrypt : Type := {
  bcrypt_genSalt : Z -> nat -> result string;
  bcrypt_hash : jsval -> string -> result string;
  bcrypt_compare : jsval -> string -> result bool
}.

(** The whole server: the greenhouse tables with the pool, and the users
    table. *)
Record site : Type := {
  world_of : world;
  usuarios : list usuario_row
}.

(** Response bodies of the other routes; [Sesion m id p] is
    [{ message: m, userId: id, token: p + id }]. *)
Inductive body_ext : Type :=
| Core (b : json_body)
| Lectura (r : lectura)
| Sesion (m : string) (userId : Z) (token_prefix : string)
| Registrado (m : string) (userId : Z).

Record response_ext : Type := { status_ext : Z; json_ext : body_ext }.

Definition res_ext (s : Z) (b : body_ext) : response_ext :=
  {| status_ext := s; json_ext := b |}.

Definition core (r : response) : response_ext :=
  res_ext (status r) (Core (json r)).

(** Handlers over the whole server. *)
Definition MS (A : Type) : Type := env -> site -> result A * site.

Definition sret {A} (a : A) : MS A := fun _ st => (Ok a, st).

Definition sbind {A B} (m : MS A) (k : A -> MS B) : MS B :=
  fun en st =>
    match m en st with
    | (Ok a, st') => k a en st'
    | (Throw e, st') => (Throw e, st')
    end.

Definition stry_catch {A} (body : MS A) (handler : sqlerr -> MS A) : MS A :=
  fun en st =>
    match body en st with
    | (Ok a, st') => (Ok a, st')
    | (Throw e, st') => handler e en st'
    end.

(** A greenhouse handler run on the whole server; the users table is out
    of its reach. *)
Definition lift {A} (m : M A) : MS A :=
  fun en st =>
    match m en (world_of st) with
    | (r, w') => (r, {| world_of := w'; usuarios := usuarios st |})
    end.

Definition smap {A B} (f : A -> B) (m : MS A) : MS B :=
  sbind m (fun a => sret (f a)).

(** The effect of one SQL statement on the users table. *)
Definition ustmt (A : Type) : Type :=
  event -> list usuario_row -> result (A * list usuario_row).

(** [pool.query(sql, params)] on [usuarios]: one await, as [pool_query]. *)
Definition users_query {A} (s : ustmt A) : MS A :=
  fun en st =>
    let e := en (tick (world_of st)) in
    let w1 := bump (world_of st) in
    match fault e with
    | Some err => (Throw err, {| world_of := w1; usuarios := usuarios st |})
    | None =>
        match s e (usuarios st) with
        | Ok (a, us) => (Ok a, {| world_of := w1; usuarios := us |})
        | Throw err => (Throw err, {| world_of := w1; usuarios := usuarios st |})
        end
    end.

(** [await] on a bcryptjs promise: no store is involved. *)
Definition bcrypt_await {A} (r : site -> result A) : MS A :=
  fun _ st => (r st, st).

Declare Scope site_scope.
Delimit Scope site_scope with site.
Notation "x <- m ;; k" := (sbind m (fun x => k))
  (at level 100, m at next level, right associativity) : site_scope.

Section Routes.

Variable rt : runtime.
Variable bc : bcrypt.

(** [SELECT temp_ambiente, humedad_ambiente, humedad_suelo, fecha_hora
    FROM registro_sensores WHERE id_invernadero = ? ORDER BY fecha_hora
    DESC LIMIT 1] *)
Definition select_ultima (id : jsval) : stmt (list lectura) :=
  fun e d => Ok (map lectura_of (firstn 1 (readings_desc rt e id d)), d).

(** GET /api/data/ultima/:id_inv; the row sent is [registro[0]]. *)
Definition ultima (id_inv : string) : M response_ext :=
  try_catch
    (registro <- pool_query (select_ultima (JStr id_inv)) ;;
     match registro with
     | [] =>
         ret (res_ext 404
                (Core (Message "No se encontraron datos para este invernadero.")))
     | r0 :: _ => ret (res_ext 200 (Lectura r0))
     end)
    (fun error =>
       ret (res_ext 500 (Core (Error "Error interno del servidor.")))).

(** [SELECT id_usuario, password_hash FROM usuarios WHERE email = ?] and
    [SELECT id_usuario FROM usuarios WHERE email = ?] *)
Definition select_user_by_email (correo : jsval) : ustmt (list usuario_row) :=
  fun _ us => Ok (filter (fun u => text_eq rt (email u) correo) us, us).

(** [INSERT INTO usuarios (nombre, email, password_hash) VALUES (?, ?,
    ?)]; the result is [insertId]. *)
Definition insert_usuario (name correo : jsval) (passwordHash : string)
  : ustmt Z :=
  fun e us =>
    Ok (insert_id e,
        (us ++ [{| u_id_usuario := insert_id e;
                   nombre := col_text rt name;
                   email := col_text rt correo;
                   password_hash := col_text rt (JStr passwordHash) |}])%list).

Local Open Scope site_scope.

(** POST /api/auth/login *)
Definition login (body : object) : MS response_ext :=
  let correo := prop body "email" in
  let password := prop body "password" in
  if negb (truthy correo) || negb (truthy password) then
    sret (res_ext 400 (Core (Error "Correo y contraseña son requeridos.")))
  else
    stry_catch
      (users <- users_query (select_user_by_email correo) ;;
       match users with
       | [] => sret (res_ext 401 (Core (Error "Credenciales inválidas.")))
       | user :: _ =>
           isMatch <- bcrypt_await
                        (fun _ => bcrypt_compare bc password (password_hash user)) ;;
           if negb isMatch then
             sret (res_ext 401 (Core (Error "Credenciales inválidas.")))
           else
             sret (res_ext 200
                     (Sesion "Inicio de sesión exitoso." (u_id_usuario user)
                        "fake-jwt-token-"))
       end)
      (fun error =>
         sret (res_ext 500 (Core (Error "Error interno del servidor.")))).

(** POST /api/auth/register *)
Definition register (body : object) : MS response_ext :=
  let name := prop body "name" in
  let correo := prop body "email" in
  let password := prop body "password" in
  if negb (truthy name) || negb (truthy correo) || negb (truthy password) then
    sret (res_ext 400
            (Core (Message "Todos los campos (nombre, correo, contraseña) son requeridos.")))
  else
    stry_catch
      (existingUsers <- users_query (select_user_by_email correo) ;;
       if (0 <? List.length existingUsers)%nat then
         sret (res_ext 409
                 (Core (Message "El correo electrónico ya está registrado.")))
       else
         salt <- bcrypt_await
                   (fun st => bcrypt_genSalt bc 10 (tick (world_of st))) ;;
         passwordHash <- bcrypt_await (fun _ => bcrypt_hash bc password salt) ;;
         newUserId <- users_query (insert_usuario name correo passwordHash) ;;
         sret (res_ext 201
                 (Registrado
                    "Usuario registrado exitosamente. Por favor, inicie sesión."
                    newUserId)))
      (fun error =>
         sret (res_ext 500
                 (Core (Message "Error interno del servidor al registrar el usuario.")))).

(** The routing table of [app]: the routes that reach the store. *)
Inductive request : Type :=
| POST_auth_login (body : object)
| POST_auth_register (body : object)
| POST_invernaderos_crear (body : object)
| GET_invernaderos_user (userId : string)
| POST_data_ingresar (body : object)
| GET_data_ultima (id_inv : string)
| GET_data_historico (id_inv : string) (query_limit : jsval)
| GET_control_estado (token : string)
| PUT_control_actualizar (id_inv : string) (body : object).

Definition serve (req : request) : MS response_ext :=
  match req with
  | POST_auth_login body => login body
  | POST_auth_register body => register body
  | POST_invernaderos_crear body => smap core (lift (crear rt body))
  | GET_invernaderos_user userId => smap core (lift (invernaderos_user rt userId))
  | POST_data_ingresar body => smap core (lift (ingresar rt body))
  | GET_data_ultima id_inv => lift (ultima id_inv)
  | GET_data_historico id_inv q => smap core (lift (historico rt id_inv q))
  | GET_control_estado token => smap core (lift (estado rt token))
  | PUT_control_actualizar id_inv body =>
      smap core (lift (actualizar rt id_inv body))
  end.

(** The server after a sequence of requests, served one after the other
    against the same outside world. *)
Fixpoint after (reqs : list request) (en : env) (st : site) : site :=
  match reqs with
  | [] => st
  | req :: rest => after rest en (snd (serve req en st))
  end.

End Routes.

(** [GET] routes and the login read the store and write nothing. *)
Definition read_only (req : request) : bool :=
  match req with
  | POST_auth_login _ | GET_invernaderos_user _ | GET_data_ultima _
  | GET_data_historico _ _ | GET_control_estado _ => true
  | _ => false
  end.

(** The requests whose handler converts a value to a string before its
    [try] block, with a value that cannot be converted: the actuator
    that indexes the table of columns, the limit given to [parseInt]. *)
Definition raises_before_try (req : request) : bool :=
  match req with
  | PUT_control_actualizar _ body =>
      truthy (prop body "actuador") && negb (is_undefined (prop body "estado"))
      && ToString_throws (prop body "actuador")
  | GET_data_historico _ query_limit => ToString_throws query_limit
  | _ => false
  end.

(** ** A runtime to run the handlers on

    [demo] agrees with JavaScript and MySQL on unsigned decimal literals
    and whole numbers, which is all the concrete runs below use. *)
Module Demo.

Definition digit (c : Ascii.ascii) : option Z :=
  let n := Z.of_nat (Ascii.nat_of_ascii c) - 48 in
  if (0 <=? n) && (n <=? 9) then Some n else None.

(** The value of the longest prefix of decimal digits, if there is one. *)
Fixpoint leading_digits (s : string) (acc : option Z) : option Z :=
  match s with
  | EmptyString => acc
  | String c r =>
      match digit c with
      | Some n =>
          leading_digits r
            (Some (10 * match acc with Some a => a | None => 0 end + n))
      | None => acc
      end
  end.

Fixpoint all_digits (s : string) : bool :=
  match s with
  | EmptyString => true
  | String c r => match digit c with Some _ => all_digits r | None => false end
  end.

Definition float_to_Z (x : float) : Z :=
  match Prim2SF x with
  | S754_finite sign m e =>
      let a := if 0 <=? e then Z.pos m * 2 ^ e else Z.pos m / 2 ^ (- e) in
      if sign then - a else a
  | _ => 0
  end.

(** ToString on whole numbers, booleans, [null], [undefined], arrays of
    these, and plain objects. *)
Fixpoint demo_ToString (v : jsval) : string :=
  match v with
  | JUndefined => "undefined"
  | JNull => "null"
  | JBool true => "true"
  | JBool false => "false"
  | JStr s => s
  | JNum x =>
      if is_nan x then "NaN"
      else NilZero.string_of_int (Z.to_int (float_to_Z x))
  | JArr items =>
      String.concat ","
        (map (fun item =>
                match item with
                | JUndefined | JNull => ""
                | _ => demo_ToString item
                end)
           items)
  | JObj _ => "[object Object]"
  end.

Fixpoint float_of_positive (p : positive) : float :=
  match p with
  | xH => 1%float
  | xO q => (2 * float_of_positive q)%float
  | xI q => (2 * float_of_positive q + 1)%float
  end.

Definition float_of_Z (n : Z) : float :=
  match n with
  | Z0 => 0%float
  | Zpos p => float_of_positive p
  | Zneg p => (- float_of_positive p)%float
  end.

Definition demo_StringToNumber (s : string) : float :=
  match leading_digits s None with
  | Some n => if all_digits s then float_of_Z n else nan
  | None => if String.eqb s "" then 0%float else nan
  end.

Definition demo_col_int (v : jsval) : Z :=
  match v with
  | JNum x => float_to_Z x
  | JStr s => match leading_digits s None with Some n => n | None => 0 end
  | JBool true => 1
  | _ => 0
  end.

Definition demo : runtime :=
  {| ToString_other := demo_ToString;
     StringToNumber := demo_StringToNumber;
     parseInt_string := fun s => leading_digits s None;
     col_int := demo_col_int;
     col_text := demo_ToString;
     int_eq := fun c v => c =? demo_col_int v;
     text_eq := fun c v => match v with JStr s => String.eqb c s | _ => false end |}.

(** No faults; the clock shows [100 + n] at the [n]-th await and the
    server hands out [insertId = 1]. *)
Definition calm : env :=
  fun n =>
    {| fault := None; now := 100 + Z.of_nat n; insert_id := 1;
       tie_invernadero := fun _ _ => true;
       tie_registro := fun _ _ => true |}.

(** [calm], except that the [k]-th await fails with [err]. *)
Definition failing_at (k : nat) (err : sqlerr) : env :=
  fun n =>
    {| fault := if Nat.eqb n k then Some err else None;
       now := 100 + Z.of_nat n;
       insert_id := 1;
       tie_invernadero := fun _ _ => true;
       tie_registro := fun _ _ => true |}.

Definition empty_db : db :=
  {| invernadero := []; estado_control := [];
     usuario_invernadero := []; registro_sensores := [] |}.

Definition boot (d : db) : world :=
  {| store := d; connection := None; leased := 0; tick := 0 |}.

Definition ER_DUP_ENTRY : sqlerr :=
  {| code := "ER_DUP_ENTRY";
     message := "Duplicate entry 'ABC' for key 'token_dispositivo'" |}.

Definition ER_LOCK_WAIT_TIMEOUT : sqlerr :=
  {| code := "ER_LOCK_WAIT_TIMEOUT"; message := "Lock wait timeout exceeded" |}.

Definition alta : object :=
  [ ("userId", JNum 7%float); ("nombreUbicacion", JStr "Greenhouse A");
    ("tokenDispositivo", JStr "ABC") ].

(** The store after user 7 has provisioned token ABC. *)
Definition db_ABC : db :=
  {| invernadero :=
       [ {| id_invernadero := 1; nombre_ubicacion := "Greenhouse A";
            token_dispositivo := "ABC"; ultima_conexion := 103 |} ];
     estado_control :=
       [ {| ec_id_invernadero := 1; luces_estado := 0; riego_estado := 0;
            ventilacion_estado := 0; ultima_actualizacion := None |} ];
     usuario_invernadero :=
       [ {| id_usuario := 7; ui_id_invernadero := 1; rol := "admin" |} ];
     registro_sensores := [] |}.

Definition lectura_ABC : object :=
  [ ("token", JStr "ABC"); ("tempAmbiente", JNum 24.5%float);
    ("humAmbiente", JNum 60%float); ("humedadSuelo", JNum 40%float) ].

Definition riego_on : object :=
  [ ("actuador", JStr "riego"); ("estado", JBool true) ].

(** A request whose user id is there, and is 0. *)
Definition alta_usuario_0 : object :=
  [ ("userId", JNum 0%float); ("nombreUbicacion", JStr "Greenhouse A");
    ("tokenDispositivo", JStr "ABC") ].

Definition fila_ABC : invernadero_row :=
  {| id_invernadero := 1; nombre_ubicacion := "Greenhouse A";
     token_dispositivo := "ABC"; ultima_conexion := 103 |}.

Definition estado_ABC : estado_row :=
  {| ec_id_invernadero := 1; luces_estado := 0; riego_estado := 0;
     ventilacion_estado := 0; ultima_actualizacion := None |}.

(** [db_ABC] with two readings of device 1, the older one first. *)
Definition db_lecturas : db :=
  {| invernadero := invernadero db_ABC;
     estado_control := estado_control db_ABC;
     usuario_invernadero := usuario_invernadero db_ABC;
     registro_sensores :=
       [ {| rs_id_invernadero := 1; fecha_hora := 110;
            temp_ambiente := 24.5%float; humedad_ambiente := 60%float;
            humedad_suelo := 40%float |};
         {| rs_id_invernadero := 1; fecha_hora := 170;
            temp_ambiente := 25%float; humedad_ambiente := 58%float;
            humedad_suelo := 39%float |} ] |}.

(** [calm], except that every await from the [k]-th on fails with
    [err]. *)
Definition failing_from (k : nat) (err : sqlerr) : env :=
  fun n =>
    {| fault := if Nat.leb k n then Some err else None;
       now := 100 + Z.of_nat n;
       insert_id := 1;
       tie_invernadero := fun _ _ => true;
       tie_registro := fun _ _ => true |}.

Definition bcrypt_TypeError : sqlerr :=
  {| code := ""; message := "Illegal arguments" |}.

(** A stand-in for bcryptjs that keeps its contract: [compare] accepts a
    password against exactly the hashes [hash] makes of it, and a
    password that is not a string is rejected. *)
Definition demo_bcrypt : bcrypt :=
  {| bcrypt_genSalt := fun _ _ => Ok "$2a$10$s4lt";
     bcrypt_hash :=
       fun p salt =>
         match p with
         | JStr s => Ok (salt ++ "." ++ s)%string
         | _ => Throw bcrypt_TypeError
         end;
     bcrypt_compare :=
       fun p h =>
         match p with
         | JStr s => Ok (String.eqb h ("$2a$10$s4lt." ++ s)%string)
         | _ => Throw bcrypt_TypeError
         end |}.

Definition boot_site (d : db) (us : list usuario_row) : site :=
  {| world_of := boot d; usuarios := us |}.

Definition alta_maria : object :=
  [ ("name", JStr "Maria"); ("email", JStr "maria@example.org");
    ("password", JStr "secreto") ].

Definition maria : usuario_row :=
  {| u_id_usuario := 1; nombre := "Maria"; email := "maria@example.org";
     password_hash := "$2a$10$s4lt.secreto" |}.

Definition luces_on : object :=
  [ ("actuador", JStr "luces"); ("estado", JBool true) ].

Definition actuador_constructor : object :=
  [ ("actuador", JStr "constructor"); ("estado", JBool true) ].

Definition lectura_vieja : registro_row :=
  {| rs_id_invernadero := 1; fecha_hora := 50;
     temp_ambiente := 20%float; humedad_ambiente := 55%float;
     humedad_suelo := 35%float |}.

(** [db_ABC] with one reading of device 1. *)
Definition db_una_lectura : db :=
  {| invernadero := invernadero db_ABC;
     estado_control := estado_control db_ABC;
     usuario_invernadero := usuario_invernadero db_ABC;
     registro_sensores := [lectura_vieja] |}.

Definition fila_DEF : invernadero_row :=
  {| id_invernadero := 2; nombre_ubicacion := "Greenhouse B";
     token_dispositivo := "DEF"; ultima_conexion := 120 |}.

Definition fila_GHI : invernadero_row :=
  {| id_invernadero := 3; nombre_ubicacion := "Greenhouse C";
     token_dispositivo := "GHI"; ultima_conexion := 125 |}.

Definition estado_riego : estado_row :=
  {| ec_id_invernadero := 1; luces_estado := 0; riego_estado := 1;
     ventilacion_estado := 0; ultima_actualizacion := Some 130 |}.

Definition registro_110 : registro_row :=
  {| rs_id_invernadero := 1; fecha_hora := 110;
     temp_ambiente := 24.5%float; humedad_ambiente := 60%float;
     humedad_suelo := 40%float |}.

Definition registro_140 : registro_row :=
  {| rs_id_invernadero := 1; fecha_hora := 140;
     temp_ambiente := 26%float; humedad_ambiente := 57%float;
     humedad_suelo := 38%float |}.

Definition registro_170 : registro_row :=
  {| rs_id_invernadero := 1; fecha_hora := 170;
     temp_ambiente := 25%float; humedad_ambiente := 58%float;
     humedad_suelo := 39%float |}.

Definition registro_DEF : registro_row :=
  {| rs_id_invernadero := 2; fecha_hora := 190;
     temp_ambiente := 21%float; humedad_ambiente := 70%float;
     humedad_suelo := 45%float |}.

(** Three devices, stored out of the order of their ids: 1 and 2 belong
    to user 7, 3 to user 8.  Device 1 has its irrigation on and three
    readings, stored out of the order of their times; device 2 has no
    control-state row and one reading, the most recent of all. *)
Definition db_dos : db :=
  {| invernadero := [fila_DEF; fila_GHI; fila_ABC];
     estado_control := [estado_riego];
     usuario_invernadero :=
       [ {| id_usuario := 7; ui_id_invernadero := 2; rol := "admin" |};
         {| id_usuario := 8; ui_id_invernadero := 3; rol := "admin" |};
         {| id_usuario := 7; ui_id_invernadero := 1; rol := "admin" |} ];
     registro_sensores :=
       [registro_110; registro_DEF; registro_170; registro_140] |}.

(** A value that cannot be converted to a string. *)
Definition sin_texto : jsval := JObj [("toString", JNum 1%float)].

Definition riego_sin_texto : object :=
  [ ("actuador", JStr "riego"); ("estado", sin_texto) ].

Definition actuador_sin_texto : object :=
  [ ("actuador", sin_texto); ("estado", JBool true) ].

Definition actuador_bomba : object :=
  [ ("actuador", JStr "bomba"); ("estado", JBool true) ].

Definition riego_off : object :=
  [ ("actuador", JStr "riego"); ("estado", JBool false) ].

End Demo.

(** ** The vocabulary of the specification *)

(** A provisioning call succeeded when it answered 201. *)
Definition succeeded (out : result response) : bool :=
  match out with
  | Ok r => status r =? 201
  | Throw _ => false
  end.

(** No transaction is left open on the handler's connection. *)
Definition no_open_transaction (w : world) : Prop :=
  match connection w with
  | Some (Some _) => False
  | _ => True
  end.


(** The token is carried by some row of [invernadero]. *)
Definition token_registered (rt : runtime) (token : jsval) (d : db) : Prop :=
  exists r, In r (invernadero d) /\ text_eq rt (token_dispositivo r) token = true.

(** No row of [invernadero] carries the token. *)
Definition token_unknown (rt : runtime) (token : jsval) (d : db) : Prop :=
  forall r, In r (invernadero d) -> text_eq rt (token_dispositivo r) token = false.

(** [r] is the first row of [invernadero] that carries the token. *)
Definition device_of_token (rt : runtime) (token : jsval) (d : db)
    (r : invernadero_row) : Prop :=
  exists before after,
    invernadero d = (before ++ r :: after)%list /\
    (forall x, In x before -> text_eq rt (token_dispositivo x) token = false) /\
    text_eq rt (token_dispositivo r) token = true.

(** The device has no row in [estado_control]. *)
Definition control_state_uninitialized (id : Z) (d : db) : Prop :=
  forall e, In e (estado_control d) -> ec_id_invernadero e <> id.

(** [e] is the first row of [estado_control] for the device. *)
Definition control_state_of (id : Z) (d : db) (e : estado_row) : Prop :=
  exists before after,
    estado_control d = (before ++ e :: after)%list /\
    (forall x, In x before -> ec_id_invernadero x <> id) /\
    ec_id_invernadero e = id.

(** The ingest of [body] took full effect between [w] and [w']: the
    reading of the device the token resolves to was appended, stamped
    with the insert's [NOW()], and that device's last contact was set by
    the UPDATE that follows. *)
Definition fully_applied (rt : runtime) (body : object) (en : env)
    (w w' : world) : Prop :=
  exists r,
    device_of_token rt (prop body "token") (store w) r /\
    registro_sensores (store w') =
      (registro_sensores (store w) ++
       [{| rs_id_invernadero := id_invernadero r;
           fecha_hora := now (en (S (tick w)));
           temp_ambiente := Number rt (prop body "tempAmbiente");
           humedad_ambiente := Number rt (prop body "humAmbiente");
           humedad_suelo := Number rt (prop body "humedadSuelo") |}])%list /\
    invernadero (store w') =
      map (touch (id_invernadero r) (now (en (S (S (tick w))))))
        (invernadero (store w)) /\
    estado_control (store w') = estado_control (store w) /\
    usuario_invernadero (store w') = usuario_invernadero (store w).

(** C8 as the specification words it: an ingest is fully applied or not
    applied at all. *)
Definition ingresar_all_or_nothing (rt : runtime) (body : object) (en : env)
    (w : world) : Prop :=
  fully_applied rt body en w (snd (ingresar rt body en w)) \/
  store (snd (ingresar rt body en w)) = store w.

(** C2 as the specification words it, for the case the handler's lookup
    cannot see: the request is complete, the transaction begins, the
    lookup finds no row for the token, the store then rejects the INSERT
    into [invernadero] as a duplicate, and the caller is answered 409. *)
Definition duplicate_insert_answers_409 (rt : runtime) (body : object)
    (en : env) (w : world) : Prop :=
  truthy (prop body "userId") = true ->
  truthy (prop body "nombreUbicacion") = true ->
  truthy (prop body "tokenDispositivo") = true ->
  fault (en (tick w)) = None ->
  fault (en (S (tick w))) = None ->
  fault (en (S (S (tick w)))) = None ->
  token_unknown rt (prop body "tokenDispositivo") (store w) ->
  (exists e, fault (en (S (S (S (tick w))))) = Some e /\
             code e = "ER_DUP_ENTRY") ->
  exists r, fst (crear rt body en w) = Ok r /\ status r = 409.

(** The store after a provisioning that went through: one row more in
    each of three tables, built from the request and from the event of the
    INSERT into [invernadero]. *)
Definition provisioned (rt : runtime) (body : object) (e : event) (d : db) : db :=
  {| invernadero :=
       (invernadero d ++
        [{| id_invernadero := insert_id e;
            nombre_ubicacion := col_text rt (prop body "nombreUbicacion");
            token_dispositivo := col_text rt (prop body "tokenDispositivo");
            ultima_conexion := now e |}])%list;
     estado_control :=
       (estado_control d ++
        [{| ec_id_invernadero := insert_id e;
            luces_estado := 0;
            riego_estado := 0;
            ventilacion_estado := 0;
            ultima_actualizacion := None |}])%list;
     usuario_invernadero :=
       (usuario_invernadero d ++
        [{| id_usuario := col_int rt (prop body "userId");
            ui_id_invernadero := insert_id e;
            rol := "admin" |}])%list;
     registro_sensores := registro_sensores d |}.

(** The reading an ingest of [body] builds for device [id], stamped by
    the event of its INSERT. *)
Definition reading_of (rt : runtime) (body : object) (e : event) (id : Z)
  : registro_row :=
  {| rs_id_invernadero := id;
     fecha_hora := now e;
     temp_ambiente := Number rt (prop body "tempAmbiente");
     humedad_ambiente := Number rt (prop body "humAmbiente");
     humedad_suelo := Number rt (prop body "humedadSuelo") |}.

(** The store with one reading more. *)
Definition with_reading (r : registro_row) (d : db) : db :=
  {| invernadero := invernadero d;
     estado_control := estado_control d;
     usuario_invernadero := usuario_invernadero d;
     registro_sensores := (registro_sensores d ++ [r])%list |}.

(** The store with the last contact of device [id] set to [t]. *)
Definition with_contact (id t : Z) (d : db) : db :=
  {| invernadero := map (touch id t) (invernadero d);
     estado_control := estado_control d;
     usuario_invernadero := usuario_invernadero d;
     registro_sensores := registro_sensores d |}.

(** The test the ingest handler makes on its request. *)
Definition ingresar_incomplete (body : object) : bool :=
  negb (truthy (prop body "token"))
  || is_undefined (prop body "humedadSuelo")
  || is_undefined (prop body "tempAmbiente")
  || is_undefined (prop body "humAmbiente").

(** The three numbers of the request are finite. *)
Definition finite_reading (rt : runtime) (body : object) : bool :=
  is_finite (Number rt (prop body "tempAmbiente"))
  && is_finite (Number rt (prop body "humAmbiente"))
  && is_finite (Number rt (prop body "humedadSuelo")).

(** The store after the UPDATE of flag [c] went through for the device
    id [id_inv] of the path. *)
Definition with_flag (rt : runtime) (c : campo) (estado : jsval)
    (id_inv : string) (t : Z) (d : db) : db :=
  {| invernadero := invernadero d;
     estado_control :=
       map (fun r =>
              if int_eq rt (ec_id_invernadero r) (JStr id_inv)
              then set_campo c (col_int rt estado) t r
              else r)
           (estado_control d);
     usuario_invernadero := usuario_invernadero d;
     registro_sensores := registro_sensores d |}.

(** The tests the actuator handler makes on its request. *)
Definition actualizar_rejected (rt : runtime) (body : object) : bool :=
  negb (truthy (prop body "actuador"))
  || is_undefined (prop body "estado")
  || match actuadorCampo rt (prop body "actuador") with
     | Absent => true
     | _ => false
     end.

(** C9 as the specification words it: an update with a valid actuator
    name and a defined value, for a device id that no control-state row
    carries, executed by the store, is answered with the confirmation
    and changes nothing. *)
Definition update_without_row_confirmed (rt : runtime) (id_inv : string)
    (body : object) (en : env) (w : world) : Prop :=
  truthy (prop body "actuador") = true ->
  (exists c, actuadorCampo rt (prop body "actuador") = Column c) ->
  is_undefined (prop body "estado") = false ->
  (forall e, In e (estado_control (store w)) ->
             int_eq rt (ec_id_invernadero e) (JStr id_inv) = false) ->
  fault (en (tick w)) = None ->
  fst (actualizar rt id_inv body en w) =
    Ok (res_status_json 200
          (Actualizado (prop body "actuador") (prop body "estado"))) /\
  store (snd (actualizar rt id_inv body en w)) = store w.

(** [l'] is [l] with rows added after it. *)
Definition extends {A} (l l' : list A) : Prop :=
  exists added, l' = (l ++ added)%list.

(** What identifies a device: its id, its label and its token. *)
Definition row_identity (r : invernadero_row) : Z * string * string :=
  (id_invernadero r, nombre_ubicacion r, token_dispositivo r).


(** How the store can differ after a request: rows are added after the
    ones that were there, devices keep their identity, and a device row
    and a control-state row come together. *)
Definition grows (d d' : db) : Prop :=
  extends (map row_identity (invernadero d)) (map row_identity (invernadero d')) /\
  extends (usuario_invernadero d) (usuario_invernadero d') /\
  extends (registro_sensores d) (registro_sensores d') /\
  exists ids,
    map id_invernadero (invernadero d') =
      (map id_invernadero (invernadero d) ++ ids)%list /\
    map ec_id_invernadero (estado_control d') =
      (map ec_id_invernadero (estado_control d) ++ ids)%list.

(** The email is carried by some row of [usuarios]. *)
Definition email_registered (rt : runtime) (correo : jsval)
    (us : list usuario_row) : Prop :=
  exists u, In u us /\ text_eq rt (email u) correo = true.

(** The user row a registration of [body] inserts, [h] being the hash
    bcrypt made. *)
Definition usuario_of (rt : runtime) (body : object) (e : event) (h : string)
  : usuario_row :=
  {| u_id_usuario := insert_id e;
     nombre := col_text rt (prop body "name");
     email := col_text rt (prop body "email");
     password_hash := col_text rt (JStr h) |}.

(** No await from the [k]-th on, for [n] awaits, fails. *)
Definition calm_for (en : env) (k n : nat) : Prop :=
  forall i, (i < n)%nat -> fault (en (i + k)%nat) = None.

(** Every token string selects at most one device. *)
Definition tokens_unique (rt : runtime) (d : db) : Prop :=
  forall s : string,
    (List.length
       (filter (fun r => text_eq rt (token_dispositivo r) (JStr s))
          (invernadero d)) <= 1)%nat.

(** * Properties *)

(** ** ORDER BY keeps the rows *)

Section OrderBy.

Context {A : Type}.
Variable le : A -> A -> bool.

Lemma insert_by_perm (x : A) (l : list A) :
  Permutation (insert_by le x l) (x :: l).
Proof.
  induction l as [|y t IH]; simpl.
  - apply Permutation_refl.
  - destruct (le x y).
    + apply Permutation_refl.
    + eapply perm_trans; [apply perm_skip, IH | apply perm_swap].
Qed.

Lemma order_by_perm (l : list A) : Permutation (order_by le l) l.
Proof.
  induction l as [|x t IH]; simpl.
  - apply perm_nil.
  - eapply perm_trans; [apply insert_by_perm | apply perm_skip, IH].
Qed.

End OrderBy.

Lemma StronglySorted_firstn {A} (R : A -> A -> Prop) (n : nat) (l : list A) :
  StronglySorted R l -> StronglySorted R (firstn n l).
Proof.
  intros H. revert n.
  induction H as [|x t Hs IH Hall]; intros [|n]; simpl; try constructor.
  - apply IH.
  - rewrite Forall_forall in *. intros y Hy.
    apply Hall. rewrite <- (firstn_skipn n t). apply in_or_app. left; exact Hy.
Qed.

Lemma StronglySorted_impl {A} (R S : A -> A -> Prop) (l : list A) :
  (forall a b, R a b -> S a b) -> StronglySorted R l -> StronglySorted S l.
Proof.
  intros HRS. induction 1 as [|x t Hs IH Hall]; constructor.
  - exact IH.
  - eapply Forall_impl; [|exact Hall]. intros y. apply HRS.
Qed.

(** ** ORDER BY ... DESC sorts, whatever the server does with equal keys *)

Section OrderByKey.

Context {A : Type}.
Variable key : A -> Z.
Variable tie : A -> A -> bool.

Lemma insert_by_desc_sorted (x : A) (l : list A) :
  StronglySorted (fun a b => key b <= key a) l ->
  StronglySorted (fun a b => key b <= key a)
    (insert_by (desc_with key tie) x l).
Proof.
  induction 1 as [|y t Hs IH Hall]; simpl.
  - constructor; [constructor | constructor].
  - destruct (desc_with key tie x y) eqn:Hxy; unfold desc_with in Hxy.
    + assert (Hle : key y <= key x).
      { apply orb_true_iff in Hxy. destruct Hxy as [H | H].
        - apply Z.ltb_lt in H. lia.
        - apply andb_true_iff in H. destruct H as [H _].
          apply Z.eqb_eq in H. lia. }
      constructor.
      * constructor; assumption.
      * constructor; [exact Hle|].
        rewrite Forall_forall in *. intros z Hz.
        specialize (Hall z Hz). simpl in Hall. lia.
    + apply orb_false_iff in Hxy. destruct Hxy as [Hlt _].
      apply Z.ltb_ge in Hlt.
      constructor; [exact IH|].
      rewrite Forall_forall in *. intros z Hz.
      apply (Permutation_in _ (insert_by_perm _ x t)) in Hz.
      destruct Hz as [<- | Hz]; [exact Hlt | apply Hall, Hz].
Qed.

Lemma order_by_desc_sorted (l : list A) :
  StronglySorted (fun a b => key b <= key a) (order_by (desc_with key tie) l).
Proof.
  induction l as [|x t IH]; simpl.
  - constructor.
  - apply insert_by_desc_sorted, IH.
Qed.

End OrderByKey.

Lemma StronglySorted_app_cross {A} (R : A -> A -> Prop) (l1 l2 : list A) :
  StronglySorted R (l1 ++ l2)%list ->
  forall x y, In x l1 -> In y l2 -> R x y.
Proof.
  induction l1 as [|a t IH]; simpl; intros Hs x y Hx Hy; [destruct Hx|].
  apply StronglySorted_inv in Hs. destruct Hs as [Ht Hall].
  destruct Hx as [<- | Hx].
  - rewrite Forall_forall in Hall. apply Hall, in_or_app. right; exact Hy.
  - apply (IH Ht x y Hx Hy).
Qed.

(** ** The handlers *)

Ltac unfold_handler :=
  unfold finally, try_catch, bind, ret, let_connection, getConnection,
    beginTransaction, commit, rollback, release, if_connection,
    conn_query, pool_query, await;
  simpl.

(** Follow every path of a handler: split on each await's fault and on
    each test of a query result, until no choice is left. *)
Ltac explore :=
  repeat match goal with
    | |- context [fault ?e] =>
        let F := fresh "F" in destruct (fault e) eqn:F; simpl
    | |- context [(0 <? ?n)%nat] =>
        let L := fresh "L" in destruct (0 <? n)%nat eqn:L; simpl
    end.

Section Properties.

Variable rt : runtime.


(** The lookup by token finds a row exactly when the token is
    registered. *)
Lemma select_id_by_token_registered (token : jsval) (d : db) :
  token_registered rt token d <->
  filter (fun r => text_eq rt (token_dispositivo r) token) (invernadero d) <> [].
Proof.
  unfold token_registered. split.
  - intros [r [Hin Hr]] E.
    assert (Hf : In r (filter (fun r => text_eq rt (token_dispositivo r) token)
                         (invernadero d)))
      by (apply filter_In; split; assumption).
    rewrite E in Hf. exact Hf.
  - destruct (filter _ _) as [|r t] eqn:E; [congruence|]. intros _.
    assert (Hf : In r (filter (fun r => text_eq rt (token_dispositivo r) token)
                         (invernadero d)))
      by (rewrite E; left; reflexivity).
    apply filter_In in Hf. exists r. exact Hf.
Qed.

Lemma filter_first {A} (f : A -> bool) (before after : list A) (x : A) :
  (forall y, In y before -> f y = false) -> f x = true ->
  filter f (before ++ x :: after)%list = x :: filter f after.
Proof.
  intros Hb Hx. induction before as [|y t IH]; simpl.
  - rewrite Hx. reflexivity.
  - rewrite (Hb y (or_introl eq_refl)). apply IH.
    intros z Hz. apply Hb. right; exact Hz.
Qed.

Lemma filter_none {A} (f : A -> bool) (l : list A) :
  (forall y, In y l -> f y = false) -> filter f l = [].
Proof.
  intros H. induction l as [|y t IH]; simpl; [reflexivity|].
  rewrite (H y (or_introl eq_refl)). apply IH.
  intros z Hz. apply H. right; exact Hz.
Qed.

(** C2, as the code has it.  With well-formed inputs and a transaction
    that has begun: when the handler's own lookup finds the token, the
    answer is 409; when the lookup finds nothing and the INSERT into
    [invernadero] is rejected by the store, for whatever reason, the
    answer is 500. *)
Theorem crear_conflict_or_internal (body : object) (en : env) (w : world) :
  truthy (prop body "userId") = true ->
  truthy (prop body "nombreUbicacion") = true ->
  truthy (prop body "tokenDispositivo") = true ->
  fault (en (tick w)) = None ->
  fault (en (S (tick w))) = None ->
  fault (en (S (S (tick w)))) = None ->
  (token_registered rt (prop body "tokenDispositivo") (store w) ->
   fault (en (S (S (S (tick w))))) = None ->
   fst (crear rt body en w) =
     Ok (res_status_json 409
           (Message "El token del dispositivo ya está asignado a otro invernadero.")))
  /\
  (~ token_registered rt (prop body "tokenDispositivo") (store w) ->
   forall e, fault (en (S (S (S (tick w))))) = Some e ->
   fault (en (S (S (S (S (tick w)))))) = None ->
   fst (crear rt body en w) =
     Ok (res_status_json 500
           (Message "Error interno del servidor al crear el invernadero."))).
Proof.
  intros Hu Hn Ht F0 F1 F2.
  unfold crear, select_id_by_token. unfold_handler.
  rewrite Hu, Hn, Ht; simpl. rewrite F0; simpl. rewrite F1; simpl.
  rewrite F2; simpl. rewrite length_map.
  split.
  - intros Hreg F3. apply select_id_by_token_registered in Hreg.
    destruct (filter _ _) as [|r t]; [congruence|]. simpl.
    rewrite F3; simpl. reflexivity.
  - intros Hnot e F3 F4.
    destruct (filter _ _) as [|r t] eqn:E.
    + simpl. rewrite F3; simpl. rewrite F4; simpl. reflexivity.
    + exfalso. apply Hnot. apply select_id_by_token_registered.
      rewrite E. discriminate.
Qed.

(** C3. When provisioning answers 201 it names the new device, and the
    committed store then holds the device row, a control-state row for it
    with the three flags off, and the ownership row (requesting user, new
    device, admin). *)
Theorem crear_cocreation (body : object) (en : env) (w : world) (r : response) :
  fst (crear rt body en w) = Ok r ->
  status r = 201 ->
  exists id e,
    json r = Creado "Invernadero creado y asignado con éxito." id /\
    id = insert_id (en (S (S (S (tick w))))) /\
    In {| id_invernadero := id;
          nombre_ubicacion := col_text rt (prop body "nombreUbicacion");
          token_dispositivo := col_text rt (prop body "tokenDispositivo");
          ultima_conexion := now (en (S (S (S (tick w))))) |}
       (invernadero (store (snd (crear rt body en w)))) /\
    In e (estado_control (store (snd (crear rt body en w)))) /\
    ec_id_invernadero e = id /\
    flag (luces_estado e) = false /\
    flag (riego_estado e) = false /\
    flag (ventilacion_estado e) = false /\
    In {| id_usuario := col_int rt (prop body "userId");
          ui_id_invernadero := id;
          rol := "admin" |}
       (usuario_invernadero (store (snd (crear rt body en w)))).
Proof.
  unfold crear, select_id_by_token, insert_invernadero, insert_estado_control,
    insert_usuario_invernadero.
  unfold_handler.
  destruct (negb (truthy (prop body "userId")) || _ || _); simpl.
  - intros E S. injection E as <-. discriminate S.
  - explore; intros E S; try discriminate E; injection E as <-;
      try discriminate S.
    simpl. eexists. eexists.
    split; [reflexivity|].
    split; [reflexivity|].
    split; [apply in_or_app; right; left; reflexivity|].
    split; [apply in_or_app; right; left; reflexivity|].
    simpl. repeat (split; [reflexivity|]).
    apply in_or_app; right; left; reflexivity.
Qed.

(** C4. An actuator update that names one flag leaves the two other
    flags of every control-state row as they were; it writes nothing but
    the named flag and the update time: device ids and the three other
    tables are untouched. *)
Theorem actualizar_frame (id_inv : string) (body : object) (en : env)
    (w : world) (named other : campo) :
  actuadorCampo rt (prop body "actuador") = Column named ->
  other <> named ->
  map (get_campo other)
      (estado_control (store (snd (actualizar rt id_inv body en w)))) =
    map (get_campo other) (estado_control (store w)) /\
  map ec_id_invernadero
      (estado_control (store (snd (actualizar rt id_inv body en w)))) =
    map ec_id_invernadero (estado_control (store w)) /\
  invernadero (store (snd (actualizar rt id_inv body en w))) =
    invernadero (store w) /\
  usuario_invernadero (store (snd (actualizar rt id_inv body en w))) =
    usuario_invernadero (store w) /\
  registro_sensores (store (snd (actualizar rt id_inv body en w))) =
    registro_sensores (store w).
Proof.
  intros Hc Hne. unfold actualizar. rewrite Hc.
  destruct (negb (truthy (prop body "actuador")) || _); simpl.
  - repeat split; reflexivity.
  - unfold update_estado. unfold_handler.
    destruct (ToString_throws (prop body "estado")); explore;
      try (repeat split; reflexivity);
      rewrite !map_map; repeat split; apply map_ext; intros e;
      destruct (int_eq rt (ec_id_invernadero e) (JStr id_inv)); try reflexivity;
      destruct other, named; try reflexivity; congruence.
Qed.

(** C5. Fetching the control state by token, with a store that answers:
    an unknown token gives 401; a token whose device has no control-state
    row gives 404, a different answer; a token whose device has one gives
    200 with three booleans, each of them false exactly when the column
    of that row is 0. *)
Theorem estado_outcomes (token : string) (en : env) (w : world) :
  fault (en (tick w)) = None ->
  (token_unknown rt (JStr token) (store w) ->
   fst (estado rt token en w) =
     Ok (res_status_json 401 (Error "Token de dispositivo no encontrado.")))
  /\
  (forall r, device_of_token rt (JStr token) (store w) r ->
   fault (en (S (tick w))) = None ->
   (control_state_uninitialized (id_invernadero r) (store w) ->
    fst (estado rt token en w) =
      Ok (res_status_json 404 (Error "Estado de control no inicializado.")))
   /\
   (forall e, control_state_of (id_invernadero r) (store w) e ->
    exists luces riego ventilacion,
      fst (estado rt token en w) =
        Ok (res_status_json 200 (Estado luces riego ventilacion)) /\
      (luces = false <-> luces_estado e = 0) /\
      (riego = false <-> riego_estado e = 0) /\
      (ventilacion = false <-> ventilacion_estado e = 0))).
Proof.
  intros F0. unfold estado, select_id_by_token, select_estado. unfold_handler.
  rewrite F0; simpl. split.
  - intros Hu. rewrite (filter_none _ _ Hu). reflexivity.
  - intros r [before [after [E [Hb Hr]]]] F1. rewrite E.
    rewrite (filter_first _ before after r Hb Hr). simpl. rewrite F1; simpl.
    split.
    + intros Hun. rewrite filter_none; [reflexivity|].
      intros e He. apply Z.eqb_neq. apply Hun, He.
    + intros e [eb [ea [Ee [Heb Hid]]]]. rewrite Ee.
      rewrite (filter_first _ eb ea e).
      * exists (flag (luces_estado e)), (flag (riego_estado e)),
          (flag (ventilacion_estado e)).
        split; [reflexivity|]. unfold flag.
        repeat split; intros H;
          try (apply negb_false_iff in H; apply Z.eqb_eq; exact H);
          rewrite H; reflexivity.
      * intros x Hx. apply Z.eqb_neq. apply Heb, Hx.
      * apply Z.eqb_eq, Hid.
Qed.

(** C9, as the code has it.  An actuator update with a valid actuator
    name and a value that is defined and can be written into the message
    of the answer, for a device id that no control-state row carries,
    answers 200 when the store executes the UPDATE, and the store is as
    it was.  Whenever the handler answers, on any call, the status is
    200, 400 or 500: never 404, never 401. *)
Theorem actualizar_sin_fila (id_inv : string) (body : object) (en : env)
    (w : world) (c : campo) :
  truthy (prop body "actuador") = true ->
  actuadorCampo rt (prop body "actuador") = Column c ->
  is_undefined (prop body "estado") = false ->
  ToString_throws (prop body "estado") = false ->
  (forall e, In e (estado_control (store w)) ->
             int_eq rt (ec_id_invernadero e) (JStr id_inv) = false) ->
  fault (en (tick w)) = None ->
  fst (actualizar rt id_inv body en w) =
    Ok (res_status_json 200
          (Actualizado (prop body "actuador") (prop body "estado"))) /\
  store (snd (actualizar rt id_inv body en w)) = store w /\
  (forall id_inv' body' en' w' r,
     fst (actualizar rt id_inv' body' en' w') = Ok r ->
     status r = 200 \/ status r = 400 \/ status r = 500).
Proof.
  intros Ht Hc Hd Hs Hno F0. split; [|split].
  - unfold actualizar. rewrite Ht, Hd, Hc, Hs. simpl.
    unfold update_estado. unfold_handler. rewrite F0. reflexivity.
  - unfold actualizar. rewrite Ht, Hd, Hc, Hs. simpl.
    unfold update_estado. unfold_handler. rewrite F0. simpl.
    destruct (store w) as [inv ec ui rs]; simpl in *. f_equal.
    rewrite <- (map_id ec) at 2. apply map_ext_in. intros e He.
    rewrite (Hno e He). reflexivity.
  - intros id' b' en' w' r. unfold actualizar.
    destruct (negb (truthy (prop b' "actuador")) || _); simpl.
    + intros E. injection E as <-. simpl; auto.
    + destruct (actuadorCampo rt (prop b' "actuador"));
        unfold update_estado, update_estado_malformed, eval; unfold_handler;
        destruct (ToString_throws (prop b' "estado")); explore;
        intros E; try discriminate E; injection E as <-; simpl; auto.
Qed.

(** C10. Provisioning judges presence by truthiness: a request whose user
    id is the number 0, or whose location label or device token is the
    empty string, is answered 400 although the field is there, and no
    await on the store has happened: the store, the pool and the count of
    awaits are as before. *)
Theorem crear_falsy_rejected (body : object) (en : env) (w : world) :
  prop body "userId" = JNum 0%float \/
  prop body "nombreUbicacion" = JStr "" \/
  prop body "tokenDispositivo" = JStr "" ->
  fst (crear rt body en w) =
    Ok (res_status_json 400
          (Message "Datos incompletos: userId, nombreUbicacion y tokenDispositivo son requeridos."))
  /\ store (snd (crear rt body en w)) = store w
  /\ leased (snd (crear rt body en w)) = leased w
  /\ tick (snd (crear rt body en w)) = tick w.
Proof.
  intros H. unfold crear. unfold_handler.
  assert (Hv : negb (truthy (prop body "userId"))
               || negb (truthy (prop body "nombreUbicacion"))
               || negb (truthy (prop body "tokenDispositivo")) = true).
  { destruct H as [-> | [-> | ->]]; simpl;
      rewrite ?orb_true_r; reflexivity. }
  rewrite Hv. simpl. repeat split; reflexivity.
Qed.

Lemma join_user_none (userId : jsval) (d : db) :
  (forall u, In u (usuario_invernadero d) ->
             int_eq rt (id_usuario u) userId = false) ->
  join_user rt userId d = [].
Proof.
  intros H. unfold join_user.
  induction (invernadero d) as [|i t IH]; simpl; [reflexivity|].
  rewrite IH, filter_none; [reflexivity|].
  intros u Hu. rewrite (H u Hu). apply andb_false_r.
Qed.

Lemma filter_pairs_fst {A B} (i : A) (f : A * B -> bool) (us : list B) :
  map fst (filter f (map (fun u => (i, u)) us)) =
  map (fun _ => i) (filter (fun u => f (i, u)) us).
Proof.
  induction us as [|u t IH]; simpl; [reflexivity|].
  destruct (f (i, u)); simpl; rewrite IH; reflexivity.
Qed.

(** The JOIN of the device listing is the pairs of the product of the
    two tables that satisfy the ON and WHERE conditions, projected on the
    device. *)
Lemma join_user_prod (userId : jsval) (d : db) :
  join_user rt userId d =
  map fst
    (filter
       (fun p =>
          (id_invernadero (fst p) =? ui_id_invernadero (snd p))
          && int_eq rt (id_usuario (snd p)) userId)
       (list_prod (invernadero d) (usuario_invernadero d))).
Proof.
  unfold join_user.
  induction (invernadero d) as [|i t IH]; simpl; [reflexivity|].
  rewrite filter_app, map_app, IH, filter_pairs_fst. reflexivity.
Qed.

(** The rows a history statement selects before the LIMIT: the readings
    of the device, most recent first. *)
Lemma readings_desc_perm (e : event) (id : jsval) (d : db) :
  Permutation (readings_desc rt e id d)
    (filter (fun r => int_eq rt (rs_id_invernadero r) id) (registro_sensores d)).
Proof. apply order_by_perm. Qed.

Lemma readings_desc_sorted (e : event) (id : jsval) (d : db) :
  StronglySorted (fun a b => fecha_hora b <= fecha_hora a)
    (readings_desc rt e id d).
Proof. apply (order_by_desc_sorted fecha_hora). Qed.

Lemma lectura_of_fields (rows : list registro_row) :
  Forall2
    (fun l r =>
       l_fecha_hora l = fecha_hora r /\
       l_temp_ambiente l = temp_ambiente r /\
       l_humedad_ambiente l = humedad_ambiente r /\
       l_humedad_suelo l = humedad_suelo r)
    (map lectura_of rows) rows.
Proof.
  induction rows as [|r t IH]; simpl; constructor; [|exact IH].
  repeat split; reflexivity.
Qed.

(** What the handler does with a limit that is a number and not
    negative, when the store answers. *)
Lemma historico_run (id_inv : string) (q : jsval) (en : env) (w : world) (n : Z) :
  limit_of rt q = Ok (Some n) ->
  0 <= n ->
  fault (en (tick w)) = None ->
  historico rt id_inv q en w =
    (let rows :=
       firstn (Z.to_nat n)
         (readings_desc rt (en (tick w)) (JStr id_inv) (store w)) in
     match rows with
     | [] => Ok (res_status_json 404
                   (Message "No se encontraron datos históricos."))
     | _ => Ok (res_status_json 200 (Lecturas (map lectura_of rows)))
     end,
     bump w).
Proof.
  intros Hl Hn F0.
  unfold historico, select_historico, eval, try_catch, bind, ret, pool_query,
    await.
  rewrite Hl. cbv zeta. rewrite F0.
  assert (Hb : (n <? 0) = false) by (apply Z.ltb_ge; lia).
  rewrite Hb. simpl.
  destruct (firstn (Z.to_nat n) _); destruct w; reflexivity.
Qed.

(** C6. A history query whose limit is a positive integer, or is left out
    and so is 50, answers with the device's readings most recent first,
    cut after the first [limit] of them: the rows answered are in
    descending order of their time, they are as many as the limit allows
    and the device has, no reading left out is more recent than one
    answered, and each carries the four columns of its reading.  (With no
    reading to answer the status is 404.) *)
Theorem historico_prefix (id_inv : string) (query_limit : jsval) (en : env)
    (w : world) (n : Z) :
  (query_limit = JUndefined /\ n = 50) \/
  (exists s, query_limit = JStr s /\ s <> "" /\ parseInt_string rt s = Some n) ->
  0 < n ->
  fault (en (tick w)) = None ->
  exists rows rest,
    Permutation (rows ++ rest)
      (filter (fun r => int_eq rt (rs_id_invernadero r) (JStr id_inv))
         (registro_sensores (store w))) /\
    StronglySorted (fun a b => fecha_hora b <= fecha_hora a) rows /\
    (forall x y, In x rows -> In y rest -> fecha_hora y <= fecha_hora x) /\
    List.length rows = Nat.min (Z.to_nat n) (List.length (rows ++ rest)) /\
    (rows = [] ->
     fst (historico rt id_inv query_limit en w) =
       Ok (res_status_json 404 (Message "No se encontraron datos históricos."))) /\
    (rows <> [] ->
     exists lecturas,
       fst (historico rt id_inv query_limit en w) =
         Ok (res_status_json 200 (Lecturas lecturas)) /\
       Forall2
         (fun l r =>
            l_fecha_hora l = fecha_hora r /\
            l_temp_ambiente l = temp_ambiente r /\
            l_humedad_ambiente l = humedad_ambiente r /\
            l_humedad_suelo l = humedad_suelo r)
         lecturas rows) /\
    store (snd (historico rt id_inv query_limit en w)) = store w.
Proof.
  intros Hq Hn F0.
  assert (Hl : limit_of rt query_limit = Ok (Some n)).
  { destruct Hq as [[-> ->] | [s [-> [Hs Hp]]]]; unfold limit_of, parseInt; simpl.
    - reflexivity.
    - apply String.eqb_neq in Hs. rewrite Hs. simpl. rewrite Hp. reflexivity. }
  rewrite (historico_run _ _ _ _ _ Hl (Z.lt_le_incl _ _ Hn) F0).
  set (full := readings_desc rt (en (tick w)) (JStr id_inv) (store w)).
  assert (Hs : StronglySorted (fun a b => fecha_hora b <= fecha_hora a) full)
    by apply readings_desc_sorted.
  exists (firstn (Z.to_nat n) full), (skipn (Z.to_nat n) full).
  rewrite (firstn_skipn (Z.to_nat n) full).
  split; [|split; [|split; [|split; [|split; [|split]]]]].
  - apply readings_desc_perm.
  - apply StronglySorted_firstn, Hs.
  - apply StronglySorted_app_cross. rewrite firstn_skipn. exact Hs.
  - apply length_firstn.
  - intros E. simpl. rewrite E. reflexivity.
  - intros E. exists (map lectura_of (firstn (Z.to_nat n) full)). simpl.
    split; [|apply lectura_of_fields].
    destruct (firstn (Z.to_nat n) full); [congruence | reflexivity].
  - reflexivity.
Qed.

(** C7. Listing the devices of a user, with a store that answers, gives
    200 with the joined rows (one for each pair of a device and an
    ownership row of the user for that device) in ascending order of
    device id; for a user who owns no device the list is empty and the
    status is still 200. *)
Theorem invernaderos_user_sorted (userId : string) (en : env) (w : world) :
  userId <> "" ->
  fault (en (tick w)) = None ->
  exists rows,
    fst (invernaderos_user rt userId en w) =
      Ok (res_status_json 200 (Invernaderos rows)) /\
    StronglySorted (fun a b => id_invernadero a <= id_invernadero b) rows /\
    Permutation rows
      (map fst
         (filter
            (fun p =>
               (id_invernadero (fst p) =? ui_id_invernadero (snd p))
               && int_eq rt (id_usuario (snd p)) (JStr userId))
            (list_prod (invernadero (store w))
               (usuario_invernadero (store w))))) /\
    ((forall u, In u (usuario_invernadero (store w)) ->
                int_eq rt (id_usuario u) (JStr userId) = false) ->
     rows = []) /\
    store (snd (invernaderos_user rt userId en w)) = store w.
Proof.
  intros Hne F0.
  exists (order_by (le_id (tie_invernadero (en (tick w))))
            (join_user rt (JStr userId) (store w))).
  unfold invernaderos_user, select_invernaderos_by_user. simpl.
  apply String.eqb_neq in Hne. rewrite Hne. simpl.
  unfold_handler. rewrite F0. simpl.
  split; [reflexivity|]. split; [|split; [|split]].
  - eapply StronglySorted_impl;
      [|apply (order_by_desc_sorted (fun r => - id_invernadero r))].
    intros a b H. simpl in H. lia.
  - rewrite <- join_user_prod. apply order_by_perm.
  - intros H. rewrite (join_user_none _ _ H). reflexivity.
  - destruct w; reflexivity.
Qed.

Lemma filter_head {A} (f : A -> bool) (l : list A) (x : A) (t : list A) :
  filter f l = x :: t ->
  exists before after,
    l = (before ++ x :: after)%list /\
    (forall y, In y before -> f y = false) /\ f x = true.
Proof.
  induction l as [|y l' IH]; simpl; [discriminate|].
  destruct (f y) eqn:Fy.
  - intros E. injection E as -> _. exists [], l'.
    split; [reflexivity|]. split; [intros ? []| exact Fy].
  - intros E. destruct (IH E) as [b [a [-> [Hb Hx]]]].
    exists (y :: b), a. split; [reflexivity|]. split; [|exact Hx].
    intros z [<- | Hz]; [exact Fy | apply Hb, Hz].
Qed.

(** C8, as the code has it.  An ingest that answers 201 has taken full
    effect: one reading of the token's device, stamped with the server's
    clock, was appended and that device's last contact refreshed; the
    other tables are as they were. *)
Theorem ingresar_exito (body : object) (en : env) (w : world) (r : response) :
  fst (ingresar rt body en w) = Ok r ->
  status r = 201 ->
  fully_applied rt body en w (snd (ingresar rt body en w)).
Proof.
  unfold ingresar, fully_applied, select_id_by_token, insert_registro,
    update_ultima_conexion, eval, Number_call.
  destruct (negb (truthy (prop body "token")) || _ || _ || _); simpl.
  - intros E S. injection E as <-. discriminate S.
  - unfold_handler.
    destruct (fault (en (tick w))) eqn:F0; simpl;
      [intros E S; injection E as <-; discriminate S|].
    destruct (filter _ (invernadero (store w))) as [|d t] eqn:Ef; simpl;
      [intros E S; injection E as <-; discriminate S|].
    do 3 (match goal with
          | |- context [if ToString_throws ?v then _ else _] =>
              destruct (ToString_throws v); simpl
          end; [intros E S; injection E as <-; discriminate S|]).
    destruct (fault (en (S (tick w)))) eqn:F1; simpl;
      [intros E S; injection E as <-; discriminate S|].
    destruct (is_finite _ && _ && _); simpl;
      [|intros E S; injection E as <-; discriminate S].
    destruct (fault (en (S (S (tick w))))) eqn:F2; simpl;
      [intros E S; injection E as <-; discriminate S|].
    intros _ _. exists d. split; [|repeat split; reflexivity].
    destruct (filter_head _ _ _ _ Ef) as [b [a [E [Hb Hd]]]].
    exists b, a. split; [exact E|]. split; [exact Hb | exact Hd].
Qed.

End Properties.

(** ** Beyond the claims: provisioning *)

Lemma filter_nil_all {A} (f : A -> bool) (l : list A) :
  filter f l = [] -> forall x, In x l -> f x = false.
Proof.
  intros E x Hx. destruct (f x) eqn:Fx; [|reflexivity].
  assert (H : In x (filter f l)) by (apply filter_In; split; assumption).
  rewrite E in H. destruct H.
Qed.

Ltac use_calm H :=
  repeat match goal with
    | |- context [fault (?en ?k)] =>
        let F := fresh "F" in
        assert (F : fault (en k) = None)
          by (first
                [ exact (H 0%nat ltac:(lia)) | exact (H 1%nat ltac:(lia))
                | exact (H 2%nat ltac:(lia)) | exact (H 3%nat ltac:(lia))
                | exact (H 4%nat ltac:(lia)) | exact (H 5%nat ltac:(lia))
                | exact (H 6%nat ltac:(lia)) | exact (H 7%nat ltac:(lia))
                | exact (H 8%nat ltac:(lia)) | exact (H 9%nat ltac:(lia))
                | exact (H 10%nat ltac:(lia)) ]);
        rewrite F; clear F; simpl
    end.

Lemma calm_for_shift (en : env) (k n m : nat) :
  calm_for en k (m + n) -> calm_for en (m + k) n.
Proof.
  intros H i Hi. replace (i + (m + k))%nat with ((i + m) + k)%nat by lia.
  apply H. lia.
Qed.

Lemma calm_for_less (en : env) (k n m : nat) :
  (m <= n)%nat -> calm_for en k n -> calm_for en k m.
Proof. intros Hle H i Hi. apply H. lia. Qed.

Section Provisioning.

Variable rt : runtime.

(** A complete request for a token no device carries, served without a
    fault, runs to the end. *)
Lemma crear_run (body : object) (en : env) (w : world) :
  truthy (prop body "userId") = true ->
  truthy (prop body "nombreUbicacion") = true ->
  truthy (prop body "tokenDispositivo") = true ->
  token_unknown rt (prop body "tokenDispositivo") (store w) ->
  calm_for en (tick w) 7 ->
  crear rt body en w =
    (Ok (res_status_json 201
           (Creado "Invernadero creado y asignado con éxito."
              (insert_id (en (3 + tick w)%nat)))),
     {| store := provisioned rt body (en (3 + tick w)%nat) (store w);
        connection := Some None;
        leased := leased w;
        tick := (7 + tick w)%nat |}).
Proof.
  intros Hu Hn Ht Hno Hc.
  unfold crear, select_id_by_token, insert_invernadero, insert_estado_control,
    insert_usuario_invernadero, provisioned.
  unfold_handler. rewrite Hu, Hn, Ht. simpl.
  use_calm Hc. rewrite (filter_none _ _ Hno). simpl.
  use_calm Hc. reflexivity.
Qed.

(** Where a provisioning call can leave the store. *)
Lemma crear_store (body : object) (en : env) (w : world) :
  store (snd (crear rt body en w)) = store w \/
  (token_unknown rt (prop body "tokenDispositivo") (store w) /\
   succeeded (fst (crear rt body en w)) = true /\
   store (snd (crear rt body en w)) =
     provisioned rt body (en (3 + tick w)%nat) (store w)).
Proof.
  unfold crear, select_id_by_token, insert_invernadero, insert_estado_control,
    insert_usuario_invernadero, provisioned, token_unknown.
  unfold_handler.
  destruct (negb (truthy (prop body "userId")) || _ || _); simpl;
    [left; reflexivity|].
  explore; try (left; reflexivity).
  right.
  match goal with
  | L : (0 <? List.length (map _ ?l))%nat = false |- _ =>
      destruct l eqn:Ef; [|simpl in L; discriminate L]
  end.
  split; [exact (filter_nil_all _ _ Ef)|]. split; reflexivity.
Qed.

(** X1. Provisioning gives back every connection it takes from the pool:
    on each path, answered or thrown, the number of connections checked
    out is what it was before the call. *)
Theorem crear_releases_connection (body : object) (en : env) (w : world) :
  leased (snd (crear rt body en w)) = leased w.
Proof.
  unfold crear, select_id_by_token, insert_invernadero, insert_estado_control,
    insert_usuario_invernadero.
  unfold_handler.
  destruct (negb (truthy (prop body "userId")) || _ || _); simpl;
    [reflexivity|].
  explore; reflexivity.
Qed.

(** X2. A complete request for a token that no device carries, with no
    failing await, is answered 201 with the server's insert id, and the
    committed store gains exactly one row in [invernadero],
    [estado_control] and [usuario_invernadero], after the rows that were
    there; the readings are untouched. *)
Theorem crear_success (body : object) (en : env) (w : world) :
  truthy (prop body "userId") = true ->
  truthy (prop body "nombreUbicacion") = true ->
  truthy (prop body "tokenDispositivo") = true ->
  token_unknown rt (prop body "tokenDispositivo") (store w) ->
  calm_for en (tick w) 7 ->
  fst (crear rt body en w) =
    Ok (res_status_json 201
          (Creado "Invernadero creado y asignado con éxito."
             (insert_id (en (3 + tick w)%nat)))) /\
  store (snd (crear rt body en w)) =
    provisioned rt body (en (3 + tick w)%nat) (store w) /\
  no_open_transaction (snd (crear rt body en w)).
Proof.
  intros Hu Hn Ht Hno Hc.
  rewrite (crear_run body en w Hu Hn Ht Hno Hc). simpl.
  split; [reflexivity|]. split; [reflexivity | exact I].
Qed.

(** X3. Provisioning throws, leaving the request unanswered, only after
    two failures: the await that failed first and then the rollback, whose
    error is the one thrown.  A single failing await is always answered. *)
Theorem crear_throw_needs_two_faults (body : object) (en : env) (w : world)
    (err : sqlerr) :
  fst (crear rt body en w) = Throw err ->
  exists i j,
    (tick w <= i < j)%nat /\
    fault (en i) <> None /\
    fault (en j) = Some err.
Proof.
  unfold crear, select_id_by_token, insert_invernadero, insert_estado_control,
    insert_usuario_invernadero.
  unfold_handler.
  destruct (negb (truthy (prop body "userId")) || _ || _); simpl;
    [discriminate|].
  explore; intros E; try discriminate E; injection E as ->;
    match goal with
    | Fi : fault (en ?i) = Some _, Fj : fault (en ?j) = Some err |- _ =>
        exists i, j; split; [lia|]; split; [congruence | exact Fj]
    end.
Qed.

(** X4. Provisioning keeps tokens unique: if every token string selects
    at most one device before the call, it does so after, whatever
    happens during the call.  The request's token is a string [t], and the
    store compares consistently: a string that matches the stored form of
    [t] selects the rows [t] selects. *)
Theorem crear_tokens_unique (body : object) (en : env) (w : world) (t : string) :
  prop body "tokenDispositivo" = JStr t ->
  (forall c s, text_eq rt (col_text rt (JStr t)) (JStr s) = true ->
               text_eq rt c (JStr s) = text_eq rt c (JStr t)) ->
  tokens_unique rt (store w) ->
  tokens_unique rt (store (snd (crear rt body en w))).
Proof.
  intros Ht Hcmp Hu.
  destruct (crear_store body en w) as [-> | [Hno [_ ->]]]; [exact Hu|].
  intros s. unfold provisioned. simpl. rewrite filter_app, length_app. simpl.
  rewrite Ht in *.
  destruct (text_eq rt (col_text rt (JStr t)) (JStr s)) eqn:E; simpl.
  - rewrite (filter_none _ (invernadero (store w))); [simpl; lia|].
    intros r Hr. rewrite (Hcmp _ _ E). apply Hno, Hr.
  - specialize (Hu s). lia.
Qed.

(** X5. Provisioning the same token a second time, right after a
    provisioning that went through, is answered 409 and adds no row.  The
    store compares consistently: the token matches its own stored form. *)
Theorem crear_twice_conflict (body : object) (en : env) (w : world) :
  truthy (prop body "userId") = true ->
  truthy (prop body "nombreUbicacion") = true ->
  truthy (prop body "tokenDispositivo") = true ->
  token_unknown rt (prop body "tokenDispositivo") (store w) ->
  text_eq rt (col_text rt (prop body "tokenDispositivo"))
    (prop body "tokenDispositivo") = true ->
  calm_for en (tick w) 11 ->
  fst (crear rt body en (snd (crear rt body en w))) =
    Ok (res_status_json 409
          (Message "El token del dispositivo ya está asignado a otro invernadero."))
  /\
  store (snd (crear rt body en (snd (crear rt body en w)))) =
    store (snd (crear rt body en w)).
Proof.
  intros Hu Hn Ht Hno Hm Hc.
  rewrite (crear_run body en w Hu Hn Ht Hno (calm_for_less _ _ 11 7 ltac:(lia) Hc)).
  unfold crear, select_id_by_token, provisioned. unfold_handler.
  rewrite Hu, Hn, Ht. simpl. use_calm Hc.
  rewrite filter_app, (filter_none _ _ Hno). simpl. rewrite Hm. simpl.
  use_calm Hc. split; reflexivity.
Qed.

(** X6. After a provisioning that went through, the device's control
    state, fetched by its token, is 200 with the three flags off.  The
    token is a string that matches its own stored form, and the insert id
    is fresh: no control-state row carried it before. *)
Theorem crear_then_estado (body : object) (en : env) (w : world) (t : string) :
  truthy (prop body "userId") = true ->
  truthy (prop body "nombreUbicacion") = true ->
  prop body "tokenDispositivo" = JStr t ->
  t <> "" ->
  token_unknown rt (JStr t) (store w) ->
  text_eq rt (col_text rt (JStr t)) (JStr t) = true ->
  control_state_uninitialized (insert_id (en (3 + tick w)%nat)) (store w) ->
  calm_for en (tick w) 9 ->
  fst (estado rt t en (snd (crear rt body en w))) =
    Ok (res_status_json 200 (Estado false false false)).
Proof.
  intros Hu Hn Ht Hne Hno Hm Hfresh Hc.
  assert (Htr : truthy (prop body "tokenDispositivo") = true).
  { rewrite Ht. simpl. apply String.eqb_neq in Hne. rewrite Hne. reflexivity. }
  assert (Hno' : token_unknown rt (prop body "tokenDispositivo") (store w))
    by (rewrite Ht; exact Hno).
  rewrite (crear_run body en w Hu Hn Htr Hno'
             (calm_for_less _ _ 9 7 ltac:(lia) Hc)).
  unfold estado, select_id_by_token, select_estado, provisioned.
  unfold_handler. use_calm Hc.
  rewrite filter_app, (filter_none _ _ Hno). simpl. rewrite Ht, Hm. simpl.
  use_calm Hc. rewrite filter_app, filter_none.
  - simpl. rewrite Z.eqb_refl. reflexivity.
  - intros e He. apply Z.eqb_neq. apply Hfresh, He.
Qed.

(** X7. After a provisioning that went through, the list of the
    requesting user's devices holds the new device.  The user id of the
    path selects the user id the request stored. *)
Theorem crear_then_listado (body : object) (en : env) (w : world) (u : string) :
  truthy (prop body "userId") = true ->
  truthy (prop body "nombreUbicacion") = true ->
  truthy (prop body "tokenDispositivo") = true ->
  token_unknown rt (prop body "tokenDispositivo") (store w) ->
  u <> "" ->
  int_eq rt (col_int rt (prop body "userId")) (JStr u) = true ->
  calm_for en (tick w) 8 ->
  exists rows,
    fst (invernaderos_user rt u en (snd (crear rt body en w))) =
      Ok (res_status_json 200 (Invernaderos rows)) /\
    In {| id_invernadero := insert_id (en (3 + tick w)%nat);
          nombre_ubicacion := col_text rt (prop body "nombreUbicacion");
          token_dispositivo := col_text rt (prop body "tokenDispositivo");
          ultima_conexion := now (en (3 + tick w)%nat) |}
       rows.
Proof.
  intros Hu Hn Ht Hno Hne Hm Hc.
  rewrite (crear_run body en w Hu Hn Ht Hno
             (calm_for_less _ _ 8 7 ltac:(lia) Hc)).
  unfold invernaderos_user, select_invernaderos_by_user. simpl.
  apply String.eqb_neq in Hne. rewrite Hne. simpl.
  unfold_handler. use_calm Hc.
  eexists. split; [reflexivity|].
  eapply Permutation_in; [apply Permutation_sym, order_by_perm|].
  unfold join_user, provisioned. simpl.
  apply in_flat_map. eexists. split.
  - apply in_or_app. right. left. reflexivity.
  - simpl. apply in_map_iff.
    exists {| id_usuario := col_int rt (prop body "userId");
              ui_id_invernadero := insert_id (en (S (S (S (tick w)))));
              rol := "admin" |}.
    split; [reflexivity|]. apply filter_In. split.
    + apply in_or_app. right. left. reflexivity.
    + simpl. rewrite Z.eqb_refl, Hm. reflexivity.
Qed.

End Provisioning.

(** ** Beyond the claims: telemetry *)

(** Split on every choice a handler makes: a failing await, an empty
    result, a test. *)
Ltac explore_all :=
  repeat match goal with
    | |- context [fault ?e] =>
        let F := fresh "F" in destruct (fault e) eqn:F; simpl
    | |- context [match ?l with [] => _ | _ :: _ => _ end] =>
        let E := fresh "E" in destruct l eqn:E; simpl
    | |- context [if ?b then _ else _] =>
        let B := fresh "B" in destruct b eqn:B; simpl
    end.

Section OrderByLast.

Context {A : Type}.
Variable le : A -> A -> bool.

(** A row that goes strictly before every row of the table comes first,
    also when it is the last one inserted. *)
Lemma order_by_last_first (l : list A) (x : A) :
  (forall y, In y l -> le y x = false) ->
  order_by le (l ++ [x]) = x :: order_by le l.
Proof.
  intros H. induction l as [|y t IH]; [reflexivity|].
  change (order_by le ((y :: t) ++ [x]))
    with (insert_by le y (order_by le (t ++ [x]))).
  rewrite IH.
  - simpl. rewrite (H y (or_introl eq_refl)). reflexivity.
  - intros z Hz. apply H. right; exact Hz.
Qed.

End OrderByLast.

Section Telemetry.

Variable rt : runtime.

(** A value whose number is finite is one that converts. *)
Lemma finite_converts (v : jsval) :
  is_finite (Number rt v) = true -> ToString_throws v = false.
Proof.
  destruct (ToString_throws v) eqn:E; [|reflexivity].
  destruct v; try discriminate E; unfold Number; rewrite E;
    intros H; vm_compute in H; discriminate H.
Qed.

(** A complete request for a known token with finite numbers, served
    without a fault, runs to the end. *)
Lemma ingresar_run (body : object) (en : env) (w : world) (r : invernadero_row) :
  ingresar_incomplete body = false ->
  device_of_token rt (prop body "token") (store w) r ->
  finite_reading rt body = true ->
  calm_for en (tick w) 3 ->
  ingresar rt body en w =
    (Ok (res_status_json 201
           (Message "Datos recibidos y guardados correctamente.")),
     {| store :=
          with_contact (id_invernadero r) (now (en (2 + tick w)%nat))
            (with_reading
               (reading_of rt body (en (1 + tick w)%nat) (id_invernadero r))
               (store w));
        connection := connection w;
        leased := leased w;
        tick := (3 + tick w)%nat |}).
Proof.
  unfold ingresar_incomplete, finite_reading.
  intros Hv [before [after [E [Hb Hr]]]] Hf Hc.
  pose proof Hf as Hf'.
  apply andb_true_iff in Hf'. destruct Hf' as [Hf' Hf3].
  apply andb_true_iff in Hf'. destruct Hf' as [Hf1 Hf2].
  unfold ingresar, select_id_by_token, insert_registro, update_ultima_conexion,
    eval, Number_call.
  rewrite Hv. unfold_handler. use_calm Hc.
  rewrite E, (filter_first _ before after r Hb Hr). simpl.
  rewrite (finite_converts _ Hf1), (finite_converts _ Hf2),
    (finite_converts _ Hf3). simpl.
  use_calm Hc. rewrite Hf. simpl. use_calm Hc. reflexivity.
Qed.

(** Where an ingest can leave the store, and with which answer. *)
Lemma ingresar_cases (body : object) (en : env) (w : world) :
  exists resp,
    fst (ingresar rt body en w) = Ok resp /\
    ((status resp <> 201 /\ store (snd (ingresar rt body en w)) = store w) \/
     exists r,
       device_of_token rt (prop body "token") (store w) r /\
       ((status resp = 500 /\
         store (snd (ingresar rt body en w)) =
           with_reading
             (reading_of rt body (en (1 + tick w)%nat) (id_invernadero r))
             (store w)) \/
        (status resp = 201 /\
         store (snd (ingresar rt body en w)) =
           with_contact (id_invernadero r) (now (en (2 + tick w)%nat))
             (with_reading
                (reading_of rt body (en (1 + tick w)%nat) (id_invernadero r))
                (store w))))).
Proof.
  unfold ingresar, select_id_by_token, insert_registro, update_ultima_conexion,
    eval, Number_call.
  destruct (negb (truthy (prop body "token")) || _ || _ || _); simpl.
  - eexists. split; [reflexivity|]. left. split; [discriminate | reflexivity].
  - unfold_handler.
    destruct (fault (en (tick w))) eqn:F0; simpl.
    { eexists. split; [reflexivity|]. left. split; [discriminate | reflexivity]. }
    destruct (filter _ (invernadero (store w))) as [|d t] eqn:Ef; simpl.
    { eexists. split; [reflexivity|]. left. split; [discriminate | reflexivity]. }
    destruct (filter_head _ _ _ _ Ef) as [b [a Hd]].
    explore_all; eexists; (split; [reflexivity|]);
      try (left; split; [discriminate | reflexivity]);
      right; exists d; (split; [exists b, a; exact Hd|]);
      [left | right]; split; reflexivity.
Qed.

(** X8. The ingest handler answers 400 exactly when the token is falsy or
    one of the three sensor fields is absent, and then without an await.
    A field that is there is accepted whatever it holds: 0, [false] and
    [null] pass. *)
Theorem ingresar_400_iff (body : object) (en : env) (w : world) :
  exists resp,
    fst (ingresar rt body en w) = Ok resp /\
    (status resp = 400 <-> ingresar_incomplete body = true) /\
    (ingresar_incomplete body = true -> snd (ingresar rt body en w) = w).
Proof.
  unfold ingresar, ingresar_incomplete, select_id_by_token, insert_registro,
    update_ultima_conexion, eval, Number_call.
  destruct (negb (truthy (prop body "token")) || _ || _ || _); simpl.
  - eexists. split; [reflexivity|]. split; [|reflexivity].
    split; reflexivity.
  - unfold_handler.
    explore_all; eexists; (split; [reflexivity|]);
      (split; [split; discriminate | discriminate]).
Qed.

(** X9. An ingest with a token that no device carries is answered 401
    and stores nothing. *)
Theorem ingresar_unknown_token (body : object) (en : env) (w : world) :
  ingresar_incomplete body = false ->
  token_unknown rt (prop body "token") (store w) ->
  fault (en (tick w)) = None ->
  fst (ingresar rt body en w) =
    Ok (res_status_json 401 (Error "Token de dispositivo no autorizado.")) /\
  store (snd (ingresar rt body en w)) = store w.
Proof.
  unfold ingresar_incomplete. intros Hv Hno F0.
  unfold ingresar, select_id_by_token. rewrite Hv. unfold_handler.
  rewrite F0. simpl. rewrite (filter_none _ _ Hno). simpl.
  split; reflexivity.
Qed.

(** X10. An ingest always answers.  When the answer is not 201 the store
    is either as it was, or holds the new reading and nothing else new,
    and in that second case the answer is 500: the reading of a call that
    reported failure can stay. *)
Theorem ingresar_outcomes (body : object) (en : env) (w : world) :
  exists resp,
    fst (ingresar rt body en w) = Ok resp /\
    (status resp <> 201 ->
     store (snd (ingresar rt body en w)) = store w \/
     (status resp = 500 /\
      exists r,
        device_of_token rt (prop body "token") (store w) r /\
        store (snd (ingresar rt body en w)) =
          with_reading
            (reading_of rt body (en (1 + tick w)%nat) (id_invernadero r))
            (store w))).
Proof.
  destruct (ingresar_cases body en w) as [resp [E H]].
  exists resp. split; [exact E|]. intros Hne.
  destruct H as [[_ H] | [r [Hd [[Hs H] | [Hs _]]]]].
  - left; exact H.
  - right. split; [exact Hs|]. exists r. split; assumption.
  - contradiction.
Qed.

Lemma readings_desc_in (e : event) (id : jsval) (d : db) (x : registro_row) :
  In x (readings_desc rt e id d) <->
  In x (registro_sensores d) /\ int_eq rt (rs_id_invernadero x) id = true.
Proof.
  unfold readings_desc. split; intros H.
  - apply (filter_In (fun r => int_eq rt (rs_id_invernadero r) id)).
    eapply Permutation_in; [apply order_by_perm | exact H].
  - eapply Permutation_in; [apply Permutation_sym, order_by_perm|].
    apply (filter_In (fun r => int_eq rt (rs_id_invernadero r) id)). exact H.
Qed.

(** A reading more recent than every other reading of the device is the
    first row, whatever the server does with equal times. *)
Lemma readings_desc_head (e : event) (id : jsval) (d : db) (x : registro_row) :
  In x (registro_sensores d) ->
  int_eq rt (rs_id_invernadero x) id = true ->
  (forall y, In y (registro_sensores d) ->
             int_eq rt (rs_id_invernadero y) id = true ->
             y = x \/ fecha_hora y < fecha_hora x) ->
  exists rest, readings_desc rt e id d = x :: rest.
Proof.
  intros Hin Hm Hmax.
  pose proof (readings_desc_sorted rt e id d) as Hs.
  assert (Hx : In x (readings_desc rt e id d))
    by (apply readings_desc_in; split; assumption).
  assert (Hall : forall y, In y (readings_desc rt e id d) ->
                           y = x \/ fecha_hora y < fecha_hora x).
  { intros y Hy. apply readings_desc_in in Hy. destruct Hy as [Hy Hmy].
    apply Hmax; assumption. }
  destruct (readings_desc rt e id d) as [|h t]; [destruct Hx|].
  destruct (Hall h (or_introl eq_refl)) as [-> | Hlt].
  - exists t. reflexivity.
  - exfalso. destruct Hx as [-> | Hx]; [lia|].
    apply StronglySorted_inv in Hs. destruct Hs as [_ Hf].
    rewrite Forall_forall in Hf. specialize (Hf x Hx). simpl in Hf. lia.
Qed.

(** X11. The latest-reading query, with a store that answers: for a
    device without readings it is 404; otherwise it is 200 with a reading
    of that device that no other reading of the device is more recent
    than. *)
Theorem ultima_is_maximum (id_inv : string) (en : env) (w : world) :
  fault (en (tick w)) = None ->
  ((forall x, In x (registro_sensores (store w)) ->
              int_eq rt (rs_id_invernadero x) (JStr id_inv) = false) ->
   fst (ultima rt id_inv en w) =
     Ok (res_ext 404
           (Core (Message "No se encontraron datos para este invernadero."))))
  /\
  (forall x0, In x0 (registro_sensores (store w)) ->
              int_eq rt (rs_id_invernadero x0) (JStr id_inv) = true ->
   exists x,
     In x (registro_sensores (store w)) /\
     int_eq rt (rs_id_invernadero x) (JStr id_inv) = true /\
     (forall y, In y (registro_sensores (store w)) ->
                int_eq rt (rs_id_invernadero y) (JStr id_inv) = true ->
                fecha_hora y <= fecha_hora x) /\
     fst (ultima rt id_inv en w) = Ok (res_ext 200 (Lectura (lectura_of x)))).
Proof.
  intros F0. unfold ultima, select_ultima. unfold_handler. rewrite F0. simpl.
  split.
  - intros Hno. unfold readings_desc. rewrite (filter_none _ _ Hno). reflexivity.
  - intros x0 Hin0 Hm0.
    pose proof (readings_desc_sorted rt (en (tick w)) (JStr id_inv) (store w))
      as Hs.
    assert (H0 : In x0 (readings_desc rt (en (tick w)) (JStr id_inv) (store w)))
      by (apply readings_desc_in; split; assumption).
    assert (Hall : forall y,
               In y (readings_desc rt (en (tick w)) (JStr id_inv) (store w)) <->
               In y (registro_sensores (store w)) /\
               int_eq rt (rs_id_invernadero y) (JStr id_inv) = true)
      by (intros y; apply readings_desc_in).
    destruct (readings_desc rt (en (tick w)) (JStr id_inv) (store w))
      as [|x rest]; [destruct H0|].
    exists x. destruct (proj1 (Hall x) (or_introl eq_refl)) as [Hx Hmx].
    split; [exact Hx|]. split; [exact Hmx|]. split; [|reflexivity].
    intros y Hy Hmy. destruct (proj2 (Hall y) (conj Hy Hmy)) as [<- | Hr].
    + lia.
    + inversion Hs as [|? ? _ Hf]; subst.
      rewrite Forall_forall in Hf. apply Hf, Hr.
Qed.

(** X12. The latest-reading query and the history query agree where the
    ORDER BY decides.  When one reading of the device is more recent than
    every other, the latest-reading query sends that reading, and a
    history query made after it, with a positive limit or none, has the
    same reading as its first row. *)
Theorem ultima_head_of_historico (id_inv : string) (query_limit : jsval)
    (en : env) (w : world) (n : Z) (x : registro_row) :
  (query_limit = JUndefined /\ n = 50) \/
  (exists s, query_limit = JStr s /\ s <> "" /\ parseInt_string rt s = Some n) ->
  0 < n ->
  calm_for en (tick w) 2 ->
  In x (registro_sensores (store w)) ->
  int_eq rt (rs_id_invernadero x) (JStr id_inv) = true ->
  (forall y, In y (registro_sensores (store w)) ->
             int_eq rt (rs_id_invernadero y) (JStr id_inv) = true ->
             y = x \/ fecha_hora y < fecha_hora x) ->
  fst (ultima rt id_inv en w) = Ok (res_ext 200 (Lectura (lectura_of x))) /\
  exists rest,
    fst (historico rt id_inv query_limit en (snd (ultima rt id_inv en w))) =
      Ok (res_status_json 200 (Lecturas (lectura_of x :: rest))).
Proof.
  intros Hq Hn Hc Hin Hm Hmax.
  assert (Hl : limit_of rt query_limit = Ok (Some n)).
  { destruct Hq as [[-> ->] | [s [-> [Hs Hp]]]]; unfold limit_of, parseInt; simpl.
    - reflexivity.
    - apply String.eqb_neq in Hs. rewrite Hs. simpl. rewrite Hp. reflexivity. }
  assert (F0 : fault (en (tick w)) = None) by exact (Hc 0%nat ltac:(lia)).
  assert (F1 : fault (en (S (tick w))) = None) by exact (Hc 1%nat ltac:(lia)).
  destruct (readings_desc_head (en (tick w)) _ _ _ Hin Hm Hmax) as [r0 E0].
  destruct (readings_desc_head (en (S (tick w))) _ _ _ Hin Hm Hmax) as [r1 E1].
  assert (Hu : ultima rt id_inv en w =
               (Ok (res_ext 200 (Lectura (lectura_of x))), bump w)).
  { unfold ultima, select_ultima. unfold_handler. rewrite F0. simpl.
    rewrite E0. simpl. destruct w; reflexivity. }
  rewrite Hu. simpl. split; [reflexivity|].
  rewrite (historico_run rt id_inv query_limit en (bump w) n Hl
             (Z.lt_le_incl _ _ Hn) F1).
  simpl. rewrite E1.
  destruct (Z.to_nat n) as [|m] eqn:En; [lia|].
  simpl. eexists. reflexivity.
Qed.

(** X13. A reading that has just been ingested is what the latest-reading
    query shows.  The ingest goes through; the device id of the path
    selects the device the token resolves to; and the server clock at the
    insert is later than the time of every reading the device has. *)
Theorem ingresar_then_ultima (body : object) (id_inv : string) (en : env)
    (w : world) (r : invernadero_row) :
  ingresar_incomplete body = false ->
  device_of_token rt (prop body "token") (store w) r ->
  finite_reading rt body = true ->
  int_eq rt (id_invernadero r) (JStr id_inv) = true ->
  (forall x, In x (registro_sensores (store w)) ->
             int_eq rt (rs_id_invernadero x) (JStr id_inv) = true ->
             fecha_hora x < now (en (1 + tick w)%nat)) ->
  calm_for en (tick w) 4 ->
  fst (ultima rt id_inv en (snd (ingresar rt body en w))) =
    Ok (res_ext 200
          (Lectura
             (lectura_of
                (reading_of rt body (en (1 + tick w)%nat) (id_invernadero r))))).
Proof.
  intros Hv Hd Hf Hm Hclock Hc.
  rewrite (ingresar_run body en w r Hv Hd Hf
             (calm_for_less _ _ 4 3 ltac:(lia) Hc)).
  unfold ultima, select_ultima, readings_desc, with_contact, with_reading.
  unfold_handler. use_calm Hc.
  rewrite filter_app. simpl. rewrite Hm.
  rewrite order_by_last_first; [reflexivity|].
  intros y Hy. apply filter_In in Hy. destruct Hy as [Hy Hmy].
  specialize (Hclock y Hy Hmy). unfold ge_fecha, desc_with. simpl in *.
  apply orb_false_iff. split; [apply Z.ltb_ge; lia|].
  apply andb_false_iff. left. apply Z.eqb_neq. lia.
Qed.

End Telemetry.

(** ** Beyond the claims: actuators *)

Section Actuators.

Variable rt : runtime.

(** An update that names a flag and gives a value, executed by the store,
    sets the flag, whether or not the message of the answer can then be
    built. *)
Lemma actualizar_run (id_inv : string) (body : object) (en : env) (w : world)
    (c : campo) :
  truthy (prop body "actuador") = true ->
  is_undefined (prop body "estado") = false ->
  actuadorCampo rt (prop body "actuador") = Column c ->
  fault (en (tick w)) = None ->
  snd (actualizar rt id_inv body en w) =
     {| store :=
          with_flag rt c (prop body "estado") id_inv (now (en (tick w)))
            (store w);
        connection := connection w;
        leased := leased w;
        tick := S (tick w) |}.
Proof.
  intros Ht Hd Hc F0. unfold actualizar. rewrite Ht, Hd, Hc. simpl.
  unfold update_estado, eval. unfold_handler. rewrite F0. simpl.
  destruct (ToString_throws (prop body "estado")); reflexivity.
Qed.

(** X14. The actuator handler turns a request away with 400 when the
    actuator is falsy, the value is absent, or the actuator names no
    property of the table, and then without an await; no other request
    is answered 400.  A value that is there is accepted whatever it
    holds: [false] and 0 pass, so a flag can be switched off. *)
Theorem actualizar_400_iff (id_inv : string) (body : object) (en : env)
    (w : world) :
  (actualizar_rejected rt body = true ->
   exists resp,
     fst (actualizar rt id_inv body en w) = Ok resp /\
     status resp = 400 /\
     snd (actualizar rt id_inv body en w) = w) /\
  (actualizar_rejected rt body = false ->
   forall resp,
     fst (actualizar rt id_inv body en w) = Ok resp -> status resp <> 400).
Proof.
  unfold actualizar, actualizar_rejected.
  destruct (negb (truthy (prop body "actuador")) || _); simpl.
  - split; [|discriminate].
    intros _. eexists. split; [reflexivity|]. split; reflexivity.
  - destruct (actuadorCampo rt (prop body "actuador"));
      unfold update_estado, update_estado_malformed, eval; unfold_handler;
      (split; [intros H; try discriminate H|intros H; try discriminate H]);
      try (eexists; split; [reflexivity|]; split; reflexivity);
      destruct (ToString_throws (prop body "estado")); explore;
      intros resp E; try discriminate E; injection E as <-; discriminate.
Qed.

(** X15. An actuator named like a property every object inherits
    ([constructor], [toString], ...) is not turned away as invalid: the
    lookup in the table finds the inherited property, a statement is sent
    to the store, and the answer is 500, with the store as it was. *)
Theorem actualizar_inherited_name (id_inv : string) (body : object)
    (en : env) (w : world) (k : string) :
  prop body "actuador" = JStr k ->
  In k Object_prototype_keys ->
  is_undefined (prop body "estado") = false ->
  fst (actualizar rt id_inv body en w) =
    Ok (res_status_json 500 (Error "Error al actualizar el estado de control."))
  /\ tick (snd (actualizar rt id_inv body en w)) = S (tick w)
  /\ store (snd (actualizar rt id_inv body en w)) = store w.
Proof.
  intros Ha Hk Hd.
  assert (Hl : actuadorCampo rt (JStr k) = Inherited /\ truthy (JStr k) = true).
  { unfold Object_prototype_keys in Hk. simpl in Hk.
    repeat (destruct Hk as [<- | Hk]; [split; reflexivity|]).
    destruct Hk. }
  destruct Hl as [Hl Ht].
  unfold actualizar. rewrite Ha, Ht, Hd, Hl. simpl.
  unfold update_estado_malformed. unfold_handler.
  destruct (fault (en (tick w))); simpl; repeat split; reflexivity.
Qed.

Lemma set_campo_id (c : campo) (v t : Z) (r : estado_row) :
  ec_id_invernadero (set_campo c v t r) = ec_id_invernadero r.
Proof. reflexivity. Qed.

(** X16. After an update that went through, the control state fetched
    by the device's token shows the named flag with the new value and the
    two other flags as they were.  The device id of the path selects the
    device's control-state row. *)
Theorem actualizar_then_estado (id_inv token : string) (body : object)
    (en : env) (w : world) (c : campo) (r : invernadero_row) (e : estado_row) :
  truthy (prop body "actuador") = true ->
  is_undefined (prop body "estado") = false ->
  actuadorCampo rt (prop body "actuador") = Column c ->
  device_of_token rt (JStr token) (store w) r ->
  control_state_of (id_invernadero r) (store w) e ->
  int_eq rt (ec_id_invernadero e) (JStr id_inv) = true ->
  calm_for en (tick w) 3 ->
  fst (estado rt token en (snd (actualizar rt id_inv body en w))) =
    Ok (res_status_json 200
          (Estado
             (if match c with luces_campo => true | _ => false end
              then flag (col_int rt (prop body "estado"))
              else flag (luces_estado e))
             (if match c with riego_campo => true | _ => false end
              then flag (col_int rt (prop body "estado"))
              else flag (riego_estado e))
             (if match c with ventilacion_campo => true | _ => false end
              then flag (col_int rt (prop body "estado"))
              else flag (ventilacion_estado e)))).
Proof.
  intros Ht Hd Hc [b [a [E [Hb Hr]]]] [eb [ea [Ee [Heb Hid]]]] Hm Hcalm.
  rewrite (actualizar_run id_inv body en w c Ht Hd Hc (Hcalm 0%nat ltac:(lia))).
  unfold estado, select_id_by_token, select_estado, with_flag.
  unfold_handler. use_calm Hcalm.
  rewrite E, (filter_first _ b a r Hb Hr). simpl. use_calm Hcalm.
  rewrite Ee, map_app. simpl. rewrite Hm.
  rewrite filter_first.
  - destruct c; reflexivity.
  - intros y Hy. apply in_map_iff in Hy. destruct Hy as [x [<- Hx]].
    apply Z.eqb_neq.
    destruct (int_eq rt (ec_id_invernadero x) (JStr id_inv));
      [rewrite set_campo_id|]; apply Heb, Hx.
  - rewrite set_campo_id. apply Z.eqb_eq, Hid.
Qed.

(** X17. Repeating an update changes no flag: after the same request
    twice, each of the three flag columns is what it was after the first
    time. *)
Theorem actualizar_idempotent (id_inv : string) (body : object) (en : env)
    (w : world) (c c' : campo) :
  truthy (prop body "actuador") = true ->
  is_undefined (prop body "estado") = false ->
  actuadorCampo rt (prop body "actuador") = Column c ->
  calm_for en (tick w) 2 ->
  map (get_campo c')
      (estado_control
         (store (snd (actualizar rt id_inv body en
                        (snd (actualizar rt id_inv body en w)))))) =
    map (get_campo c')
      (estado_control (store (snd (actualizar rt id_inv body en w)))).
Proof.
  intros Ht Hd Hc Hcalm.
  rewrite (actualizar_run id_inv body en w c Ht Hd Hc (Hcalm 0%nat ltac:(lia))).
  erewrite (actualizar_run id_inv body en _ c Ht Hd Hc)
    by exact (Hcalm 1%nat ltac:(lia)).
  unfold with_flag. simpl. rewrite !map_map. apply map_ext. intros x.
  destruct (int_eq rt (ec_id_invernadero x) (JStr id_inv)) eqn:Ei.
  - rewrite set_campo_id, Ei. destruct c, c'; reflexivity.
  - rewrite Ei. reflexivity.
Qed.

(** X18. Updates of different flags of a device commute: two requests
    that name different flags leave the same store in either order. *)
Theorem actualizar_commute (id_inv : string) (b1 b2 : object) (en : env)
    (w : world) (c1 c2 : campo) :
  truthy (prop b1 "actuador") = true ->
  is_undefined (prop b1 "estado") = false ->
  actuadorCampo rt (prop b1 "actuador") = Column c1 ->
  truthy (prop b2 "actuador") = true ->
  is_undefined (prop b2 "estado") = false ->
  actuadorCampo rt (prop b2 "actuador") = Column c2 ->
  c1 <> c2 ->
  calm_for en (tick w) 2 ->
  store (snd (actualizar rt id_inv b2 en (snd (actualizar rt id_inv b1 en w)))) =
  store (snd (actualizar rt id_inv b1 en (snd (actualizar rt id_inv b2 en w)))).
Proof.
  intros Ht1 Hd1 Hc1 Ht2 Hd2 Hc2 Hne Hcalm.
  rewrite (actualizar_run id_inv b1 en w c1 Ht1 Hd1 Hc1 (Hcalm 0%nat ltac:(lia))).
  rewrite (actualizar_run id_inv b2 en w c2 Ht2 Hd2 Hc2 (Hcalm 0%nat ltac:(lia))).
  erewrite (actualizar_run id_inv b2 en _ c2 Ht2 Hd2 Hc2)
    by exact (Hcalm 1%nat ltac:(lia)).
  erewrite (actualizar_run id_inv b1 en _ c1 Ht1 Hd1 Hc1)
    by exact (Hcalm 1%nat ltac:(lia)).
  unfold with_flag. simpl. f_equal. rewrite !map_map. apply map_ext. intros x.
  destruct (int_eq rt (ec_id_invernadero x) (JStr id_inv)) eqn:Ei.
  - rewrite !set_campo_id, Ei. destruct c1, c2; try reflexivity; congruence.
  - rewrite Ei. reflexivity.
Qed.

End Actuators.

(** ** Beyond the claims: the server as a whole *)

Lemma extends_refl {A} (l : list A) : extends l l.
Proof. exists []. symmetry. apply app_nil_r. Qed.

Lemma extends_trans {A} (l1 l2 l3 : list A) :
  extends l1 l2 -> extends l2 l3 -> extends l1 l3.
Proof.
  intros [a ->] [b ->]. exists (a ++ b)%list. symmetry. apply app_assoc.
Qed.

Lemma extends_one {A} (l : list A) (x : A) : extends l (l ++ [x]).
Proof. exists [x]. reflexivity. Qed.

Lemma grows_refl (d : db) : grows d d.
Proof.
  repeat split; try apply extends_refl.
  exists []. rewrite !app_nil_r. split; reflexivity.
Qed.

Lemma grows_trans (d1 d2 d3 : db) : grows d1 d2 -> grows d2 d3 -> grows d1 d3.
Proof.
  intros [A1 [B1 [C1 [x [D1 E1]]]]] [A2 [B2 [C2 [y [D2 E2]]]]].
  split; [eapply extends_trans; eassumption|].
  split; [eapply extends_trans; eassumption|].
  split; [eapply extends_trans; eassumption|].
  exists (x ++ y)%list. rewrite D2, E2, D1, E1, !app_assoc. split; reflexivity.
Qed.


Lemma touch_identity (id t : Z) (l : list invernadero_row) :
  map row_identity (map (touch id t) l) = map row_identity l /\
  map id_invernadero (map (touch id t) l) = map id_invernadero l.
Proof.
  rewrite !map_map. split; apply map_ext; intros r; unfold touch;
    destruct (id_invernadero r =? id); reflexivity.
Qed.

Section Server.

Variable rt : runtime.
Variable bc : bcrypt.

Lemma grows_provisioned (body : object) (e : event) (d : db) :
  grows d (provisioned rt body e d).
Proof.
  unfold grows, provisioned. simpl. rewrite !map_app. simpl.
  split; [apply extends_one|]. split; [apply extends_one|].
  split; [apply extends_refl|].
  exists [insert_id e]. split; reflexivity.
Qed.

Lemma grows_with_reading (r : registro_row) (d : db) :
  grows d (with_reading r d).
Proof.
  unfold grows, with_reading. simpl.
  split; [apply extends_refl|]. split; [apply extends_refl|].
  split; [apply extends_one|].
  exists []. rewrite !app_nil_r. split; reflexivity.
Qed.

Lemma grows_with_contact (id t : Z) (d : db) : grows d (with_contact id t d).
Proof.
  unfold grows, with_contact. simpl.
  destruct (touch_identity id t (invernadero d)) as [-> ->].
  split; [apply extends_refl|]. split; [apply extends_refl|].
  split; [apply extends_refl|].
  exists []. rewrite !app_nil_r. split; reflexivity.
Qed.

Lemma grows_with_flag (c : campo) (v : jsval) (id_inv : string) (t : Z) (d : db) :
  grows d (with_flag rt c v id_inv t d).
Proof.
  unfold grows, with_flag. simpl.
  split; [apply extends_refl|]. split; [apply extends_refl|].
  split; [apply extends_refl|].
  exists []. rewrite !app_nil_r. split; [reflexivity|].
  rewrite map_map. apply map_ext. intros r.
  destruct (int_eq rt (ec_id_invernadero r) (JStr id_inv)); reflexivity.
Qed.

(** The four greenhouse handlers that only read: they answer, leave the
    store alone, and answer 500 when their first await fails. *)
Lemma invernaderos_user_reads (userId : string) (en : env) (w : world) :
  exists resp,
    fst (invernaderos_user rt userId en w) = Ok resp /\
    store (snd (invernaderos_user rt userId en w)) = store w /\
    (fault (en (tick w)) <> None -> status resp = 400 \/ status resp = 500).
Proof.
  unfold invernaderos_user, select_invernaderos_by_user.
  destruct (negb (truthy (JStr userId))); unfold_handler;
    explore; eexists; (split; [reflexivity|]); (split; [reflexivity|]);
    intros H; simpl; auto; congruence.
Qed.

Lemma ToString_throws_truthy (v : jsval) :
  ToString_throws v = true -> truthy v = true.
Proof. destruct v; simpl; intros H; try discriminate H; reflexivity. Qed.

Lemma historico_reads (id_inv : string) (q : jsval) (en : env) (w : world) :
  store (snd (historico rt id_inv q en w)) = store w /\
  (if ToString_throws q
   then exists e, fst (historico rt id_inv q en w) = Throw e
   else exists resp, fst (historico rt id_inv q en w) = Ok resp) /\
  (forall resp,
     fst (historico rt id_inv q en w) = Ok resp ->
     fault (en (tick w)) <> None -> status resp = 400 \/ status resp = 500).
Proof.
  unfold historico, limit_of, parseInt, select_historico, eval.
  destruct (ToString_throws q) eqn:Hq.
  - rewrite (ToString_throws_truthy _ Hq). unfold_handler.
    split; [reflexivity|]. split; [eexists; reflexivity|].
    intros resp E. discriminate E.
  - destruct (truthy q);
      [destruct (parseInt_string rt (to_string rt q)) as [n|];
         [destruct (n <? 0)|]|];
      unfold_handler; explore_all;
      (split; [reflexivity|]); (split; [eexists; reflexivity|]);
      intros resp Er H; injection Er as <-; simpl; auto; congruence.
Qed.

Lemma estado_reads (token : string) (en : env) (w : world) :
  exists resp,
    fst (estado rt token en w) = Ok resp /\
    store (snd (estado rt token en w)) = store w /\
    (fault (en (tick w)) <> None -> status resp = 400 \/ status resp = 500).
Proof.
  unfold estado, select_id_by_token, select_estado. unfold_handler.
  destruct (fault (en (tick w))) eqn:F0; simpl.
  - eexists. split; [reflexivity|]. split; [reflexivity|]. simpl; auto.
  - explore_all; eexists; (split; [reflexivity|]); (split; [reflexivity|]);
      intros H; congruence.
Qed.

Lemma ultima_reads (id_inv : string) (en : env) (w : world) :
  exists resp,
    fst (ultima rt id_inv en w) = Ok resp /\
    store (snd (ultima rt id_inv en w)) = store w /\
    (fault (en (tick w)) <> None ->
     status_ext resp = 400 \/ status_ext resp = 500).
Proof.
  unfold ultima, select_ultima. unfold_handler.
  explore_all; eexists; (split; [reflexivity|]); (split; [reflexivity|]);
    intros H; simpl; auto; congruence.
Qed.

(** Where an actuator update can leave the store. *)
Lemma actualizar_cases (id_inv : string) (body : object) (en : env) (w : world) :
  (store (snd (actualizar rt id_inv body en w)) = store w \/
   exists c,
     fault (en (tick w)) = None /\
     store (snd (actualizar rt id_inv body en w)) =
       with_flag rt c (prop body "estado") id_inv (now (en (tick w)))
         (store w)) /\
  (if truthy (prop body "actuador") && negb (is_undefined (prop body "estado"))
      && ToString_throws (prop body "actuador")
   then exists e, fst (actualizar rt id_inv body en w) = Throw e
   else exists resp, fst (actualizar rt id_inv body en w) = Ok resp) /\
  (fault (en (tick w)) <> None ->
   store (snd (actualizar rt id_inv body en w)) = store w /\
   forall resp,
     fst (actualizar rt id_inv body en w) = Ok resp ->
     status resp = 400 \/ status resp = 500).
Proof.
  unfold actualizar, actuadorCampo.
  destruct (truthy (prop body "actuador")); simpl;
    [destruct (is_undefined (prop body "estado")); simpl|].
  - split; [left; reflexivity|]. split; [eexists; reflexivity|].
    intros _. split; [reflexivity|].
    intros resp E. injection E as <-. simpl; auto.
  - destruct (ToString_throws (prop body "actuador")); simpl.
    + unfold eval. split; [left; reflexivity|]. split; [eexists; reflexivity|].
      intros _. split; [reflexivity|]. intros resp E. discriminate E.
    + repeat match goal with
        | |- context [if ?b then _ else _] =>
            lazymatch b with
            | ToString_throws _ => fail
            | _ => destruct b
            end
        end;
        unfold update_estado, update_estado_malformed, with_flag, eval;
        unfold_handler;
        destruct (ToString_throws (prop body "estado")); explore;
        (split;
         [first [left; reflexivity
                | right; eexists; split; reflexivity]|]);
        (split; [eexists; reflexivity|]);
        intros H; try congruence;
        (split; [reflexivity|]);
        intros resp E; try discriminate E; injection E as <-; simpl; auto.
  - split; [left; reflexivity|]. split; [eexists; reflexivity|].
    intros _. split; [reflexivity|].
    intros resp E. injection E as <-. simpl; auto.
Qed.

Lemma crear_first_fault (body : object) (en : env) (w : world) :
  fault (en (tick w)) <> None ->
  exists resp,
    fst (crear rt body en w) = Ok resp /\
    (status resp = 400 \/ status resp = 500) /\
    store (snd (crear rt body en w)) = store w.
Proof.
  unfold crear. unfold_handler.
  destruct (negb (truthy (prop body "userId")) || _ || _); simpl.
  - intros _. eexists. split; [reflexivity|]. simpl. auto.
  - destruct (fault (en (tick w))) eqn:F0; [|congruence]. simpl.
    intros _. eexists. split; [reflexivity|]. simpl. auto.
Qed.

Lemma ingresar_first_fault (body : object) (en : env) (w : world) :
  fault (en (tick w)) <> None ->
  exists resp,
    fst (ingresar rt body en w) = Ok resp /\
    (status resp = 400 \/ status resp = 500) /\
    store (snd (ingresar rt body en w)) = store w.
Proof.
  unfold ingresar.
  destruct (negb (truthy (prop body "token")) || _ || _ || _); simpl.
  - intros _. eexists. split; [reflexivity|]. simpl. auto.
  - unfold_handler. destruct (fault (en (tick w))) eqn:F0; [|congruence].
    simpl. intros _. eexists. split; [reflexivity|]. simpl. auto.
Qed.

Ltac unfold_site :=
  unfold stry_catch, sbind, sret, users_query, bcrypt_await; simpl.

(** What a login does: it answers, changes nothing, and a 200 comes from
    a user with that email whose stored hash bcrypt accepted. *)
Lemma login_cases (body : object) (en : env) (st : site) :
  exists resp,
    fst (login rt bc body en st) = Ok resp /\
    usuarios (snd (login rt bc body en st)) = usuarios st /\
    store (world_of (snd (login rt bc body en st))) = store (world_of st) /\
    (fault (en (tick (world_of st))) <> None ->
     status_ext resp = 400 \/ status_ext resp = 500) /\
    (status_ext resp = 401 ->
     resp = res_ext 401 (Core (Error "Credenciales inválidas."))) /\
    (status_ext resp = 200 ->
     exists u,
       In u (usuarios st) /\
       text_eq rt (email u) (prop body "email") = true /\
       bcrypt_compare bc (prop body "password") (password_hash u) = Ok true /\
       resp = res_ext 200
                (Sesion "Inicio de sesión exitoso." (u_id_usuario u)
                   "fake-jwt-token-")).
Proof.
  unfold login, select_user_by_email.
  destruct (negb (truthy (prop body "email")) || _); simpl.
  - eexists. split; [reflexivity|]. repeat split; simpl; auto; discriminate.
  - unfold_site.
    destruct (fault (en (tick (world_of st)))) eqn:F0; simpl.
    { eexists. split; [reflexivity|]. repeat split; simpl; auto; discriminate. }
    destruct (filter _ (usuarios st)) as [|u t] eqn:Ef; simpl.
    { eexists. split; [reflexivity|].
      repeat split; simpl; auto; try discriminate; congruence. }
    assert (Hu : In u (usuarios st) /\
                 text_eq rt (email u) (prop body "email") = true).
    { apply (filter_In (fun u => text_eq rt (email u) (prop body "email"))).
      rewrite Ef. left. reflexivity. }
    destruct (bcrypt_compare bc (prop body "password") (password_hash u))
      as [[|]|err] eqn:Ec; simpl;
      eexists; (split; [reflexivity|]);
      repeat split; simpl; auto; try discriminate; try congruence.
    intros _. exists u. destruct Hu as [H1 H2]. repeat split; assumption.
Qed.

(** What a registration does to the users table. *)
Lemma register_cases (body : object) (en : env) (st : site) :
  exists resp,
    fst (register rt bc body en st) = Ok resp /\
    store (world_of (snd (register rt bc body en st))) = store (world_of st) /\
    ((status_ext resp <> 201 /\
      usuarios (snd (register rt bc body en st)) = usuarios st) \/
     (exists salt h,
        status_ext resp = 201 /\
        bcrypt_genSalt bc 10 (S (tick (world_of st))) = Ok salt /\
        bcrypt_hash bc (prop body "password") salt = Ok h /\
        (forall u, In u (usuarios st) ->
                   text_eq rt (email u) (prop body "email") = false) /\
        usuarios (snd (register rt bc body en st)) =
          (usuarios st ++
           [usuario_of rt body (en (S (tick (world_of st)))) h])%list)) /\
    (fault (en (tick (world_of st))) <> None ->
     (status_ext resp = 400 \/ status_ext resp = 500) /\
     usuarios (snd (register rt bc body en st)) = usuarios st).
Proof.
  unfold register, select_user_by_email, insert_usuario, usuario_of.
  destruct (negb (truthy (prop body "name")) || _ || _); simpl.
  - eexists. split; [reflexivity|]. split; [reflexivity|].
    split; [left; split; [discriminate | reflexivity]|]. simpl; auto.
  - unfold_site.
    destruct (fault (en (tick (world_of st)))) eqn:F0; simpl.
    { eexists. split; [reflexivity|]. split; [reflexivity|].
      split; [left; split; [discriminate | reflexivity]|]. simpl; auto. }
    destruct (filter _ (usuarios st)) as [|u t] eqn:Ef; simpl.
    + destruct (bcrypt_genSalt bc 10 (S (tick (world_of st))))
        as [salt|err] eqn:Es; simpl;
        [destruct (bcrypt_hash bc (prop body "password") salt)
           as [h|err] eqn:Eh; simpl;
         [destruct (fault (en (S (tick (world_of st))))) eqn:F1; simpl|]|];
        eexists; (split; [reflexivity|]); (split; [reflexivity|]);
        (split; [|intros H; congruence]);
        try (left; split; [discriminate | reflexivity]).
      right. exists salt, h. split; [reflexivity|]. split; [reflexivity|].
      split; [exact Eh|]. split; [exact (filter_nil_all _ _ Ef) | reflexivity].
    + eexists. split; [reflexivity|]. split; [reflexivity|].
      split; [left; split; [discriminate | reflexivity]|].
      intros H; congruence.
Qed.

(** A greenhouse handler served by the whole server. *)
Lemma lift_core (m : M response) (en : env) (st : site) :
  snd (smap core (lift m) en st) =
    {| world_of := snd (m en (world_of st)); usuarios := usuarios st |} /\
  fst (smap core (lift m) en st) =
    match fst (m en (world_of st)) with
    | Ok r => Ok (core r)
    | Throw e => Throw e
    end.
Proof.
  unfold smap, lift, sbind, sret.
  destruct (m en (world_of st)) as [[r|e] w']; split; reflexivity.
Qed.

Lemma lift_plain {A} (m : M A) (en : env) (st : site) :
  snd (lift m en st) =
    {| world_of := snd (m en (world_of st)); usuarios := usuarios st |} /\
  fst (lift m en st) = fst (m en (world_of st)).
Proof.
  unfold lift. destruct (m en (world_of st)) as [r w']; split; reflexivity.
Qed.

(** One request makes the store grow, and the users table with it. *)
Lemma serve_grows (req : request) (en : env) (st : site) :
  grows (store (world_of st)) (store (world_of (snd (serve rt bc req en st)))) /\
  extends (usuarios st) (usuarios (snd (serve rt bc req en st))).
Proof.
  destruct req; simpl.
  - destruct (login_cases body en st) as [r [_ [-> [-> _]]]].
    split; [apply grows_refl | apply extends_refl].
  - destruct (register_cases body en st)
      as [r [_ [-> [[[_ ->] | [salt [h [_ [_ [_ [_ ->]]]]]]] _]]]];
      (split; [apply grows_refl|]); [apply extends_refl | apply extends_one].
  - rewrite (proj1 (lift_core _ en st)). simpl.
    split; [|apply extends_refl].
    destruct (crear_store rt body en (world_of st)) as [-> | [_ [_ ->]]];
      [apply grows_refl | apply grows_provisioned].
  - rewrite (proj1 (lift_core _ en st)). simpl.
    destruct (invernaderos_user_reads userId en (world_of st)) as [r [_ [-> _]]].
    split; [apply grows_refl | apply extends_refl].
  - rewrite (proj1 (lift_core _ en st)). simpl.
    split; [|apply extends_refl].
    destruct (ingresar_cases rt body en (world_of st))
      as [r [_ [[_ ->] | [d [_ [[_ ->] | [_ ->]]]]]]].
    + apply grows_refl.
    + apply grows_with_reading.
    + eapply grows_trans; [apply grows_with_reading | apply grows_with_contact].
  - rewrite (proj1 (lift_plain _ en st)). simpl.
    destruct (ultima_reads id_inv en (world_of st)) as [r [_ [-> _]]].
    split; [apply grows_refl | apply extends_refl].
  - rewrite (proj1 (lift_core _ en st)). simpl.
    destruct (historico_reads id_inv query_limit en (world_of st)) as [-> _].
    split; [apply grows_refl | apply extends_refl].
  - rewrite (proj1 (lift_core _ en st)). simpl.
    destruct (estado_reads token en (world_of st)) as [r [_ [-> _]]].
    split; [apply grows_refl | apply extends_refl].
  - rewrite (proj1 (lift_core _ en st)). simpl.
    split; [|apply extends_refl].
    destruct (actualizar_cases id_inv body en (world_of st))
      as [[-> | [c [_ ->]]] _];
      [apply grows_refl | apply grows_with_flag].
Qed.

Lemma after_grows (reqs : list request) (en : env) (st : site) :
  grows (store (world_of st)) (store (world_of (after rt bc reqs en st))) /\
  extends (usuarios st) (usuarios (after rt bc reqs en st)).
Proof.
  revert st. induction reqs as [|req rest IH]; intros st; simpl.
  - split; [apply grows_refl | apply extends_refl].
  - destruct (serve_grows req en st) as [G1 U1].
    destruct (IH (snd (serve rt bc req en st))) as [G2 U2].
    split; [eapply grows_trans | eapply extends_trans]; eassumption.
Qed.

(** X19. The routes that read (the four GET routes and the login) leave
    every table as it was, whatever fails on the way. *)
Theorem serve_read_only (req : request) (en : env) (st : site) :
  read_only req = true ->
  store (world_of (snd (serve rt bc req en st))) = store (world_of st) /\
  usuarios (snd (serve rt bc req en st)) = usuarios st.
Proof.
  destruct req; simpl; try discriminate; intros _.
  - destruct (login_cases body en st) as [r [_ [-> [-> _]]]].
    split; reflexivity.
  - rewrite (proj1 (lift_core _ en st)). simpl.
    destruct (invernaderos_user_reads userId en (world_of st)) as [r [_ [-> _]]].
    split; reflexivity.
  - rewrite (proj1 (lift_plain _ en st)). simpl.
    destruct (ultima_reads id_inv en (world_of st)) as [r [_ [-> _]]].
    split; reflexivity.
  - rewrite (proj1 (lift_core _ en st)). simpl.
    destruct (historico_reads id_inv query_limit en (world_of st)) as [-> _].
    split; reflexivity.
  - rewrite (proj1 (lift_core _ en st)). simpl.
    destruct (estado_reads token en (world_of st)) as [r [_ [-> _]]].
    split; reflexivity.
Qed.

(** X20. Every route but provisioning answers a request unless it
    throws before its [try] block, which only the actuator update and the
    history query can do, on a value that cannot be converted to a
    string: otherwise, whatever the store or bcrypt does, the handler
    ends in a response. *)
Theorem serve_always_answers (req : request) (en : env) (st : site) :
  (forall body, req <> POST_invernaderos_crear body) ->
  (raises_before_try req = false ->
   exists resp, fst (serve rt bc req en st) = Ok resp) /\
  (raises_before_try req = true ->
   exists e, fst (serve rt bc req en st) = Throw e).
Proof.
  destruct req; simpl; intros Hreq;
    try (split; [intros _ | discriminate]).
  - destruct (login_cases body en st) as [r [E _]]. exists r; exact E.
  - destruct (register_cases body en st) as [r [E _]]. exists r; exact E.
  - exfalso. apply (Hreq body). reflexivity.
  - rewrite (proj2 (lift_core _ en st)).
    destruct (invernaderos_user_reads userId en (world_of st)) as [r [-> _]].
    eexists; reflexivity.
  - rewrite (proj2 (lift_core _ en st)).
    destruct (ingresar_cases rt body en (world_of st)) as [r [-> _]].
    eexists; reflexivity.
  - rewrite (proj2 (lift_plain _ en st)).
    destruct (ultima_reads id_inv en (world_of st)) as [r [-> _]].
    eexists; reflexivity.
  - rewrite (proj2 (lift_core _ en st)).
    destruct (historico_reads id_inv query_limit en (world_of st))
      as [_ [H _]].
    split; intros Hq; rewrite Hq in H; destruct H as [r ->];
      eexists; reflexivity.
  - rewrite (proj2 (lift_core _ en st)).
    destruct (estado_reads token en (world_of st)) as [r [-> _]].
    eexists; reflexivity.
  - rewrite (proj2 (lift_core _ en st)).
    destruct (actualizar_cases id_inv body en (world_of st)) as [_ [H _]].
    split; intros Hq; rewrite Hq in H; destruct H as [r ->];
      eexists; reflexivity.
Qed.

(** X21. When the first await of a request fails, no table has changed,
    on every route; the answer, which the handler gives unless it throws
    before its [try] block, is 400 (the request was turned away before
    the await) or 500. *)
Theorem serve_fault_first (req : request) (en : env) (st : site) :
  fault (en (tick (world_of st))) <> None ->
  store (world_of (snd (serve rt bc req en st))) = store (world_of st) /\
  usuarios (snd (serve rt bc req en st)) = usuarios st /\
  (forall resp,
     fst (serve rt bc req en st) = Ok resp ->
     status_ext resp = 400 \/ status_ext resp = 500) /\
  (raises_before_try req = false ->
   exists resp, fst (serve rt bc req en st) = Ok resp).
Proof.
  intros F. destruct req; simpl.
  - destruct (login_cases body en st) as [r [E [U [S [H _]]]]].
    rewrite E. repeat split; auto.
    + intros resp Er. injection Er as <-. auto.
    + eexists; reflexivity.
  - destruct (register_cases body en st) as [r [E [S [_ H]]]].
    destruct (H F) as [H1 H2]. rewrite E. repeat split; auto.
    + intros resp Er. injection Er as <-. auto.
    + eexists; reflexivity.
  - rewrite (proj1 (lift_core _ en st)), (proj2 (lift_core _ en st)).
    destruct (crear_first_fault body en (world_of st) F) as [r [-> [H S]]].
    simpl. repeat split; auto.
    + intros resp Er. injection Er as <-. auto.
    + eexists; reflexivity.
  - rewrite (proj1 (lift_core _ en st)), (proj2 (lift_core _ en st)).
    destruct (invernaderos_user_reads userId en (world_of st))
      as [r [-> [S H]]].
    simpl. repeat split; auto.
    + intros resp Er. injection Er as <-. auto.
    + eexists; reflexivity.
  - rewrite (proj1 (lift_core _ en st)), (proj2 (lift_core _ en st)).
    destruct (ingresar_first_fault body en (world_of st) F) as [r [-> [H S]]].
    simpl. repeat split; auto.
    + intros resp Er. injection Er as <-. auto.
    + eexists; reflexivity.
  - rewrite (proj1 (lift_plain _ en st)), (proj2 (lift_plain _ en st)).
    destruct (ultima_reads id_inv en (world_of st)) as [r [-> [S H]]].
    simpl. repeat split; auto.
    + intros resp Er. injection Er as <-. auto.
    + eexists; reflexivity.
  - rewrite (proj1 (lift_core _ en st)), (proj2 (lift_core _ en st)).
    destruct (historico_reads id_inv query_limit en (world_of st))
      as [S [A H]].
    simpl. repeat split; auto.
    + intros resp Er.
      destruct (fst (historico rt id_inv query_limit en (world_of st)))
        as [r|e]; [|discriminate Er].
      injection Er as <-. apply (H r eq_refl F).
    + intros Hq. rewrite Hq in A. destruct A as [r ->]. eexists; reflexivity.
  - rewrite (proj1 (lift_core _ en st)), (proj2 (lift_core _ en st)).
    destruct (estado_reads token en (world_of st)) as [r [-> [S H]]].
    simpl. repeat split; auto.
    + intros resp Er. injection Er as <-. auto.
    + eexists; reflexivity.
  - rewrite (proj1 (lift_core _ en st)), (proj2 (lift_core _ en st)).
    destruct (actualizar_cases id_inv body en (world_of st)) as [_ [A H]].
    destruct (H F) as [H1 H2].
    simpl. repeat split; auto.
    + intros resp Er.
      destruct (fst (actualizar rt id_inv body en (world_of st)))
        as [r|e]; [|discriminate Er].
      injection Er as <-. apply (H2 r eq_refl).
    + intros Hq. rewrite Hq in A. destruct A as [r ->]. eexists; reflexivity.
Qed.

(** X22. Nothing is deleted and no device changes identity: after any
    sequence of requests, under any failures, the devices that were there
    are still there in the same order with the same id, label and token,
    and the ownership rows, the readings and the users that were there
    are still there, unchanged; new rows come after them. *)
Theorem after_append_only (reqs : list request) (en : env) (st : site) :
  extends (map row_identity (invernadero (store (world_of st))))
    (map row_identity (invernadero (store (world_of (after rt bc reqs en st)))))
  /\
  extends (usuario_invernadero (store (world_of st)))
    (usuario_invernadero (store (world_of (after rt bc reqs en st)))) /\
  extends (registro_sensores (store (world_of st)))
    (registro_sensores (store (world_of (after rt bc reqs en st)))) /\
  extends (usuarios st) (usuarios (after rt bc reqs en st)).
Proof.
  destruct (after_grows reqs en st) as [[A [B [C _]]] U].
  repeat split; assumption.
Qed.


(** A complete registration of an email no user has, with bcrypt and the
    store doing their part, runs to the end. *)
Lemma register_run (body : object) (en : env) (st : site) (salt h : string) :
  truthy (prop body "name") = true ->
  truthy (prop body "email") = true ->
  truthy (prop body "password") = true ->
  (forall u, In u (usuarios st) ->
             text_eq rt (email u) (prop body "email") = false) ->
  bcrypt_genSalt bc 10 (S (tick (world_of st))) = Ok salt ->
  bcrypt_hash bc (prop body "password") salt = Ok h ->
  calm_for en (tick (world_of st)) 2 ->
  register rt bc body en st =
    (Ok (res_ext 201
           (Registrado
              "Usuario registrado exitosamente. Por favor, inicie sesión."
              (insert_id (en (1 + tick (world_of st))%nat)))),
     {| world_of := bump (bump (world_of st));
        usuarios :=
          (usuarios st ++
           [usuario_of rt body (en (1 + tick (world_of st))%nat) h])%list |}).
Proof.
  intros Hn He Hp Hno Hs Hh Hc.
  unfold register, select_user_by_email, insert_usuario, usuario_of.
  rewrite Hn, He, Hp. simpl. unfold_site. use_calm Hc.
  rewrite (filter_none _ _ Hno). simpl. rewrite Hs. simpl. rewrite Hh. simpl.
  use_calm Hc. reflexivity.
Qed.

(** X24. Registering an email that a user already has is answered 409
    and adds no user. *)
Theorem register_conflict (body : object) (en : env) (st : site) :
  truthy (prop body "name") = true ->
  truthy (prop body "email") = true ->
  truthy (prop body "password") = true ->
  email_registered rt (prop body "email") (usuarios st) ->
  fault (en (tick (world_of st))) = None ->
  fst (register rt bc body en st) =
    Ok (res_ext 409 (Core (Message "El correo electrónico ya está registrado.")))
  /\ usuarios (snd (register rt bc body en st)) = usuarios st.
Proof.
  intros Hn He Hp [u [Hu Hm]] F0.
  unfold register, select_user_by_email.
  rewrite Hn, He, Hp. simpl. unfold_site. rewrite F0. simpl.
  destruct (filter _ (usuarios st)) as [|x t] eqn:Ef.
  - rewrite (filter_nil_all _ _ Ef u Hu) in Hm. discriminate Hm.
  - simpl. split; reflexivity.
Qed.

(** X25. The users table changes only when a registration answers 201,
    and then by one row after the others: the email had no user, and the
    password field holds the stored form of the hash bcrypt made of the
    request's password with a fresh salt. *)
Theorem register_effect (body : object) (en : env) (st : site) :
  exists resp,
    fst (register rt bc body en st) = Ok resp /\
    ((status_ext resp <> 201 /\
      usuarios (snd (register rt bc body en st)) = usuarios st) \/
     (exists salt h,
        status_ext resp = 201 /\
        bcrypt_genSalt bc 10 (S (tick (world_of st))) = Ok salt /\
        bcrypt_hash bc (prop body "password") salt = Ok h /\
        (forall u, In u (usuarios st) ->
                   text_eq rt (email u) (prop body "email") = false) /\
        usuarios (snd (register rt bc body en st)) =
          (usuarios st ++
           [usuario_of rt body (en (S (tick (world_of st)))) h])%list)).
Proof.
  destruct (register_cases body en st) as [resp [E [_ [H _]]]].
  exists resp. split; assumption.
Qed.

(** X26. A user who has just registered can log in with the same email
    and password, and is answered 200 with the user id the registration
    returned.  bcrypt accepts the password against the stored form of the
    hash it made, and the email matches its own stored form. *)
Theorem register_then_login (body : object) (en : env) (st : site)
    (salt h : string) :
  truthy (prop body "name") = true ->
  truthy (prop body "email") = true ->
  truthy (prop body "password") = true ->
  (forall u, In u (usuarios st) ->
             text_eq rt (email u) (prop body "email") = false) ->
  bcrypt_genSalt bc 10 (S (tick (world_of st))) = Ok salt ->
  bcrypt_hash bc (prop body "password") salt = Ok h ->
  bcrypt_compare bc (prop body "password") (col_text rt (JStr h)) = Ok true ->
  text_eq rt (col_text rt (prop body "email")) (prop body "email") = true ->
  calm_for en (tick (world_of st)) 3 ->
  fst (login rt bc body en (snd (register rt bc body en st))) =
    Ok (res_ext 200
          (Sesion "Inicio de sesión exitoso."
             (insert_id (en (1 + tick (world_of st))%nat))
             "fake-jwt-token-")).
Proof.
  intros Hn He Hp Hno Hs Hh Hcmp Hm Hc.
  rewrite (register_run body en st salt h Hn He Hp Hno Hs Hh
             (calm_for_less _ _ 3 2 ltac:(lia) Hc)).
  unfold login, select_user_by_email, usuario_of.
  rewrite He, Hp. simpl. unfold_site. use_calm Hc.
  rewrite filter_app, (filter_none _ _ Hno). simpl. rewrite Hm. simpl.
  rewrite Hcmp. reflexivity.
Qed.

(** X27. A login that is refused does not say why: every 401 carries the
    same body, whether no user has the email or the password is wrong. *)
Theorem login_same_401 (body : object) (en : env) (st : site)
    (resp : response_ext) :
  fst (login rt bc body en st) = Ok resp ->
  status_ext resp = 401 ->
  resp = res_ext 401 (Core (Error "Credenciales inválidas.")).
Proof.
  intros E S.
  destruct (login_cases body en st) as [r [Er [_ [_ [_ [H _]]]]]].
  rewrite E in Er. injection Er as <-. apply H, S.
Qed.

(** X28. A login is answered 200 only for a user of the table who has
    that email and whose stored hash bcrypt accepted for the password
    sent; the user id in the answer is that user's. *)
Theorem login_200_only_if_match (body : object) (en : env) (st : site)
    (resp : response_ext) :
  fst (login rt bc body en st) = Ok resp ->
  status_ext resp = 200 ->
  exists u,
    In u (usuarios st) /\
    text_eq rt (email u) (prop body "email") = true /\
    bcrypt_compare bc (prop body "password") (password_hash u) = Ok true /\
    resp = res_ext 200
             (Sesion "Inicio de sesión exitoso." (u_id_usuario u)
                "fake-jwt-token-").
Proof.
  intros E S.
  destruct (login_cases body en st) as [r [Er [_ [_ [_ [_ H]]]]]].
  rewrite E in Er. injection Er as <-. apply H, S.
Qed.

End Server.

(** ** Concrete runs *)

Import Demo.

(** The scenario of the specification: provision ABC for user 7. *)
Example crear_ABC :
  crear demo alta calm (boot empty_db) =
    (Ok (res_status_json 201
           (Creado "Invernadero creado y asignado con éxito." 1)),
     {| store := db_ABC; connection := Some None; leased := 0; tick := 7 |}).
Proof. reflexivity. Qed.

Example estado_ABC_flags :
  fst (estado demo "ABC" calm (boot db_ABC)) =
    Ok (res_status_json 200 (Estado false false false)).
Proof. reflexivity. Qed.

Example actualizar_riego :
  fst (estado demo "ABC" calm
         (snd (actualizar demo "1" riego_on calm (boot db_ABC)))) =
    Ok (res_status_json 200 (Estado false true false)).
Proof. reflexivity. Qed.

Example actualizar_actuador_heredado :
  fst (actualizar demo "1"
         [ ("actuador", JStr "constructor"); ("estado", JBool true) ]
         calm (boot db_ABC)) =
    Ok (res_status_json 500 (Error "Error al actualizar el estado de control.")).
Proof. reflexivity. Qed.

Example historico_recent_first :
  fst (historico demo "1" (JStr "1") calm (boot db_lecturas)) =
    Ok (res_status_json 200
          (Lecturas
             [ {| l_fecha_hora := 170; l_temp_ambiente := 25%float;
                  l_humedad_ambiente := 58%float;
                  l_humedad_suelo := 39%float |} ])).
Proof. reflexivity. Qed.

(** The handler does not check the limit itself: 0 selects no row and is
    answered 404, and a limit that is not a number makes the statement
    fail and is answered 500. *)
Example historico_limit_unchecked :
  fst (historico demo "1" (JStr "0") calm (boot db_lecturas)) =
    Ok (res_status_json 404 (Message "No se encontraron datos históricos."))
  /\
  fst (historico demo "1" (JStr "abc") calm (boot db_lecturas)) =
    Ok (res_status_json 500
          (Error "Error interno del servidor al consultar la base de datos.")).
Proof. split; reflexivity. Qed.

(** A value with a [toString] property of its own that is not a function
    cannot be converted to a string.  As the actuator it makes the
    handler throw before its [try]; as the value it is written to the
    store and the answer is 500. *)
Example actualizar_sin_texto :
  fst (actualizar demo "1" actuador_sin_texto calm (boot db_ABC)) =
    Throw TypeError_primitive /\
  fst (actualizar demo "1" riego_sin_texto calm (boot db_ABC)) =
    Ok (res_status_json 500 (Error "Error al actualizar el estado de control.")).
Proof. split; reflexivity. Qed.



(** C2 fails as worded: the lookup sees no row for ABC, the store rejects
    the INSERT as a duplicate (another session has committed ABC in
    between), and the handler's catch block answers 500. *)
Lemma crear_duplicate_insert_is_500 :
  ~ duplicate_insert_answers_409 demo alta (failing_at 3 ER_DUP_ENTRY)
      (boot empty_db).
Proof.
  intros H. destruct H as [r [E S]]; try reflexivity.
  - intros r [].
  - exists ER_DUP_ENTRY. split; reflexivity.
  - vm_compute in E. injection E as <-. discriminate S.
Qed.

Lemma crear_conflict_or_internal_witness :
  fst (crear demo alta calm (boot db_ABC)) =
    Ok (res_status_json 409
          (Message "El token del dispositivo ya está asignado a otro invernadero."))
  /\
  fst (crear demo alta (failing_at 3 ER_DUP_ENTRY) (boot empty_db)) =
    Ok (res_status_json 500
          (Message "Error interno del servidor al crear el invernadero.")).
Proof.
  split.
  - destruct (crear_conflict_or_internal demo alta calm (boot db_ABC)
                eq_refl eq_refl eq_refl eq_refl eq_refl eq_refl) as [H _].
    apply H; [|reflexivity].
    exists fila_ABC. split; [left; reflexivity | reflexivity].
  - destruct (crear_conflict_or_internal demo alta
                (failing_at 3 ER_DUP_ENTRY) (boot empty_db)
                eq_refl eq_refl eq_refl eq_refl eq_refl eq_refl) as [_ H].
    apply (H (fun '(ex_intro _ _ (conj i _)) => match i with end)
             ER_DUP_ENTRY eq_refl eq_refl).
Defined.

Lemma crear_cocreation_witness :
  exists id e,
    In e (estado_control (store (snd (crear demo alta calm (boot empty_db))))) /\
    ec_id_invernadero e = id /\
    flag (luces_estado e) = false /\
    flag (riego_estado e) = false /\
    flag (ventilacion_estado e) = false /\
    In {| id_usuario := 7; ui_id_invernadero := id; rol := "admin" |}
       (usuario_invernadero
          (store (snd (crear demo alta calm (boot empty_db))))).
Proof.
  destruct (crear_cocreation demo alta calm (boot empty_db)
              (res_status_json 201
                 (Creado "Invernadero creado y asignado con éxito." 1))
              eq_refl eq_refl)
    as [id [e [_ [_ [_ [He [Hid [Hl [Hr [Hv Hu]]]]]]]]]].
  exists id, e. repeat split; assumption.
Defined.

Lemma actualizar_frame_witness :
  map (get_campo luces_campo)
      (estado_control
         (store (snd (actualizar demo "1" riego_on calm (boot db_ABC))))) =
    map (get_campo luces_campo) (estado_control (store (boot db_ABC))) /\
  map (get_campo ventilacion_campo)
      (estado_control
         (store (snd (actualizar demo "1" riego_on calm (boot db_ABC))))) =
    map (get_campo ventilacion_campo) (estado_control (store (boot db_ABC))).
Proof.
  split.
  - apply (actualizar_frame demo "1" riego_on calm (boot db_ABC)
             riego_campo luces_campo); [reflexivity | discriminate].
  - apply (actualizar_frame demo "1" riego_on calm (boot db_ABC)
             riego_campo ventilacion_campo); [reflexivity | discriminate].
Defined.

Lemma estado_outcomes_witness :
  fst (estado demo "XYZ" calm (boot db_dos)) =
    Ok (res_status_json 401 (Error "Token de dispositivo no encontrado."))
  /\
  fst (estado demo "DEF" calm (boot db_dos)) =
    Ok (res_status_json 404 (Error "Estado de control no inicializado."))
  /\
  fst (estado demo "ABC" calm (boot db_dos)) =
    Ok (res_status_json 200 (Estado false true false)).
Proof.
  split; [|split].
  - destruct (estado_outcomes demo "XYZ" calm (boot db_dos) eq_refl) as [H _].
    apply H. intros r [<- | [<- | [<- | []]]]; reflexivity.
  - destruct (estado_outcomes demo "DEF" calm (boot db_dos) eq_refl) as [_ H].
    destruct (H fila_DEF) as [H' _].
    + exists [], [fila_GHI; fila_ABC].
      split; [reflexivity|]. split; [intros ? [] | reflexivity].
    + reflexivity.
    + apply H'. intros e [<- | []]. discriminate.
  - destruct (estado_outcomes demo "ABC" calm (boot db_dos) eq_refl) as [_ H].
    destruct (H fila_ABC) as [_ H'].
    + exists [fila_DEF; fila_GHI], [].
      split; [reflexivity|].
      split; [intros x [<- | [<- | []]]; reflexivity | reflexivity].
    + reflexivity.
    + destruct (H' estado_riego) as [l [r [v [E [Hl [Hr Hv]]]]]].
      * exists [], []. split; [reflexivity|]. split; [intros ? [] | reflexivity].
      * rewrite E.
        rewrite (proj2 Hl eq_refl), (proj2 Hv eq_refl).
        destruct r; [reflexivity|].
        discriminate (proj1 Hr eq_refl).
Defined.

Lemma historico_prefix_witness :
  (exists rows rest,
     Permutation (rows ++ rest) [registro_110; registro_170; registro_140] /\
     StronglySorted (fun a b => fecha_hora b <= fecha_hora a) rows /\
     (forall x y, In x rows -> In y rest -> fecha_hora y <= fecha_hora x) /\
     List.length rows = 2%nat) /\
  fst (historico demo "1" (JStr "2") calm (boot db_dos)) =
    Ok (res_status_json 200
          (Lecturas
             [ {| l_fecha_hora := 170; l_temp_ambiente := 25%float;
                  l_humedad_ambiente := 58%float;
                  l_humedad_suelo := 39%float |};
               {| l_fecha_hora := 140; l_temp_ambiente := 26%float;
                  l_humedad_ambiente := 57%float;
                  l_humedad_suelo := 38%float |} ])) /\
  fst (historico demo "1" JUndefined calm (boot db_dos)) =
    Ok (res_status_json 200
          (Lecturas
             [ {| l_fecha_hora := 170; l_temp_ambiente := 25%float;
                  l_humedad_ambiente := 58%float;
                  l_humedad_suelo := 39%float |};
               {| l_fecha_hora := 140; l_temp_ambiente := 26%float;
                  l_humedad_ambiente := 57%float;
                  l_humedad_suelo := 38%float |};
               {| l_fecha_hora := 110; l_temp_ambiente := 24.5%float;
                  l_humedad_ambiente := 60%float;
                  l_humedad_suelo := 40%float |} ])).
Proof.
  split; [|split; reflexivity].
  destruct (historico_prefix demo "1" (JStr "2") calm (boot db_dos) 2)
    as [rows [rest [Hp [Hs [Hc [Hlen _]]]]]].
  - right. exists "2". split; [reflexivity|]. split; [discriminate | reflexivity].
  - reflexivity.
  - reflexivity.
  - exists rows, rest. split; [exact Hp|]. split; [exact Hs|].
    split; [exact Hc|].
    rewrite (Permutation_length Hp) in Hlen. exact Hlen.
Defined.

Lemma invernaderos_user_sorted_witness :
  fst (invernaderos_user demo "7" calm (boot db_dos)) =
    Ok (res_status_json 200 (Invernaderos [fila_ABC; fila_DEF])).
Proof.
  destruct (invernaderos_user_sorted demo "7" calm (boot db_dos))
    as [rows [E [Hs [Hp _]]]]; [discriminate | reflexivity |].
  rewrite E. do 3 f_equal.
  change (Permutation rows [fila_DEF; fila_ABC]) in Hp.
  pose proof (Permutation_length Hp) as Hl.
  destruct rows as [|a [|b [|c t]]]; try discriminate Hl.
  assert (Ha : In fila_ABC [a; b]).
  { eapply Permutation_in; [apply Permutation_sym, Hp|]. right; left; reflexivity. }
  assert (Hd : In fila_DEF [a; b]).
  { eapply Permutation_in; [apply Permutation_sym, Hp|]. left; reflexivity. }
  apply StronglySorted_inv in Hs. destruct Hs as [_ Hf].
  apply Forall_inv in Hf.
  destruct Ha as [Ha | [Ha | []]]; destruct Hd as [Hd | [Hd | []]]; subst;
    try discriminate Hd; try reflexivity.
  exfalso. apply Hf. reflexivity.
Defined.

(** C8 fails as worded: the reading is inserted, the UPDATE of the last
    contact fails, and nothing undoes the insert. *)
Lemma ingresar_partly_applied :
  ~ ingresar_all_or_nothing demo lectura_ABC
      (failing_at 2 ER_LOCK_WAIT_TIMEOUT) (boot db_ABC).
Proof.
  intros [[r [[before [after [E _]]] [_ [Hinv _]]]] | Hno].
  - assert (Hr : r = fila_ABC).
    { destruct before as [|x [|y b]]; simpl in E.
      - injection E as <- _. reflexivity.
      - discriminate E.
      - discriminate E. }
    subst r. vm_compute in Hinv. discriminate Hinv.
  - vm_compute in Hno. discriminate Hno.
Qed.

Lemma ingresar_exito_witness :
  fully_applied demo lectura_ABC calm (boot db_ABC)
    (snd (ingresar demo lectura_ABC calm (boot db_ABC))).
Proof.
  apply (ingresar_exito demo lectura_ABC calm (boot db_ABC)
           (res_status_json 201
              (Message "Datos recibidos y guardados correctamente."))
           eq_refl eq_refl).
Defined.

(** C9 fails as worded: the actuator is valid, the value is defined,
    no row carries the id and the store executes the UPDATE; the message
    of the answer cannot be built from the value, and the catch block
    answers 500. *)
Lemma actualizar_valor_sin_texto_500 :
  ~ update_without_row_confirmed demo "99" riego_sin_texto calm (boot db_ABC).
Proof.
  intros H. destruct H as [H _]; try reflexivity.
  - exists riego_campo. reflexivity.
  - intros e [<- | []]. reflexivity.
  - vm_compute in H. discriminate H.
Qed.

Lemma actualizar_sin_fila_witness :
  fst (actualizar demo "99" riego_on calm (boot db_ABC)) =
    Ok (res_status_json 200 (Actualizado (JStr "riego") (JBool true))) /\
  store (snd (actualizar demo "99" riego_on calm (boot db_ABC))) = db_ABC.
Proof.
  destruct (actualizar_sin_fila demo "99" riego_on calm (boot db_ABC)
              riego_campo eq_refl eq_refl eq_refl eq_refl) as [H1 [H2 _]].
  - intros e [<- | []]. reflexivity.
  - reflexivity.
  - split; assumption.
Defined.

Lemma crear_falsy_rejected_witness :
  fst (crear demo alta_usuario_0 calm (boot empty_db)) =
    Ok (res_status_json 400
          (Message "Datos incompletos: userId, nombreUbicacion y tokenDispositivo son requeridos."))
  /\ tick (snd (crear demo alta_usuario_0 calm (boot empty_db))) = 0%nat.
Proof.
  destruct (crear_falsy_rejected demo alta_usuario_0 calm (boot empty_db))
    as [H1 [_ [_ H2]]].
  - left. reflexivity.
  - split; assumption.
Defined.

(** ** Concrete runs beyond the claims *)

Lemma calm_is_calm (k n : nat) : calm_for calm k n.
Proof. intros i _. reflexivity. Qed.

Lemma empty_db_token_unknown (token : jsval) : token_unknown demo token empty_db.
Proof. intros r []. Qed.

Lemma fila_ABC_is_device : device_of_token demo (JStr "ABC") db_ABC fila_ABC.
Proof.
  exists [], []. split; [reflexivity|]. split; [intros ? [] | reflexivity].
Qed.

Lemma estado_ABC_is_control_state : control_state_of 1 db_ABC estado_ABC.
Proof.
  exists [], []. split; [reflexivity|]. split; [intros ? [] | reflexivity].
Qed.

Lemma crear_success_witness :
  fst (crear demo alta calm (boot empty_db)) =
    Ok (res_status_json 201
          (Creado "Invernadero creado y asignado con éxito." 1)) /\
  store (snd (crear demo alta calm (boot empty_db))) = db_ABC.
Proof.
  destruct (crear_success demo alta calm (boot empty_db) eq_refl eq_refl
              eq_refl (empty_db_token_unknown _) (calm_is_calm _ _))
    as [H1 [H2 _]].
  split; [exact H1 | exact H2].
Defined.

Lemma crear_throw_needs_two_faults_witness :
  exists i j,
    (0 <= i < j)%nat /\
    fault (failing_from 3 ER_LOCK_WAIT_TIMEOUT i) <> None /\
    fault (failing_from 3 ER_LOCK_WAIT_TIMEOUT j) = Some ER_LOCK_WAIT_TIMEOUT.
Proof.
  apply (crear_throw_needs_two_faults demo alta
           (failing_from 3 ER_LOCK_WAIT_TIMEOUT) (boot empty_db)
           ER_LOCK_WAIT_TIMEOUT).
  reflexivity.
Defined.

Lemma crear_tokens_unique_witness :
  tokens_unique demo (store (snd (crear demo alta calm (boot empty_db)))).
Proof.
  apply (crear_tokens_unique demo alta calm (boot empty_db) "ABC" eq_refl).
  - intros c s H. change (String.eqb "ABC" s = true) in H.
    apply String.eqb_eq in H. subst s. reflexivity.
  - intros s. apply Nat.le_0_l.
Defined.

Lemma crear_twice_conflict_witness :
  fst (crear demo alta calm (snd (crear demo alta calm (boot empty_db)))) =
    Ok (res_status_json 409
          (Message "El token del dispositivo ya está asignado a otro invernadero."))
  /\
  store (snd (crear demo alta calm (snd (crear demo alta calm (boot empty_db)))))
    = store (snd (crear demo alta calm (boot empty_db))).
Proof.
  apply (crear_twice_conflict demo alta calm (boot empty_db) eq_refl eq_refl
           eq_refl (empty_db_token_unknown _) eq_refl (calm_is_calm _ _)).
Defined.

Lemma crear_then_estado_witness :
  fst (estado demo "ABC" calm (snd (crear demo alta calm (boot empty_db)))) =
    Ok (res_status_json 200 (Estado false false false)).
Proof.
  apply (crear_then_estado demo alta calm (boot empty_db) "ABC" eq_refl eq_refl
           eq_refl).
  - discriminate.
  - apply empty_db_token_unknown.
  - reflexivity.
  - intros e [].
  - apply calm_is_calm.
Defined.

Lemma crear_then_listado_witness :
  exists rows,
    fst (invernaderos_user demo "7" calm
           (snd (crear demo alta calm (boot empty_db)))) =
      Ok (res_status_json 200 (Invernaderos rows)) /\
    In fila_ABC rows.
Proof.
  apply (crear_then_listado demo alta calm (boot empty_db) "7" eq_refl eq_refl
           eq_refl (empty_db_token_unknown _)).
  - discriminate.
  - reflexivity.
  - apply calm_is_calm.
Defined.

Lemma ingresar_unknown_token_witness :
  fst (ingresar demo lectura_ABC calm (boot empty_db)) =
    Ok (res_status_json 401 (Error "Token de dispositivo no autorizado.")) /\
  store (snd (ingresar demo lectura_ABC calm (boot empty_db))) =
    store (boot empty_db).
Proof.
  apply (ingresar_unknown_token demo lectura_ABC calm (boot empty_db) eq_refl
           (empty_db_token_unknown _) eq_refl).
Defined.

Lemma ultima_is_maximum_witness :
  exists x,
    In x (registro_sensores db_lecturas) /\
    int_eq demo (rs_id_invernadero x) (JStr "1") = true /\
    (forall y, In y (registro_sensores db_lecturas) ->
               int_eq demo (rs_id_invernadero y) (JStr "1") = true ->
               fecha_hora y <= fecha_hora x) /\
    fst (ultima demo "1" calm (boot db_lecturas)) =
      Ok (res_ext 200 (Lectura (lectura_of x))).
Proof.
  destruct (ultima_is_maximum demo "1" calm (boot db_lecturas) eq_refl)
    as [_ H].
  apply (H {| rs_id_invernadero := 1; fecha_hora := 110;
              temp_ambiente := 24.5%float; humedad_ambiente := 60%float;
              humedad_suelo := 40%float |}).
  - left. reflexivity.
  - reflexivity.
Defined.

Lemma ultima_head_of_historico_witness :
  fst (ultima demo "1" calm (boot db_dos)) =
    Ok (res_ext 200
          (Lectura
             {| l_fecha_hora := 170; l_temp_ambiente := 25%float;
                l_humedad_ambiente := 58%float;
                l_humedad_suelo := 39%float |})) /\
  exists rest,
    fst (historico demo "1" (JStr "2") calm
           (snd (ultima demo "1" calm (boot db_dos)))) =
      Ok (res_status_json 200
            (Lecturas
               ({| l_fecha_hora := 170; l_temp_ambiente := 25%float;
                   l_humedad_ambiente := 58%float;
                   l_humedad_suelo := 39%float |} :: rest))).
Proof.
  apply (ultima_head_of_historico demo "1" (JStr "2") calm (boot db_dos) 2
           registro_170).
  - right. exists "2". split; [reflexivity|]. split; [discriminate | reflexivity].
  - reflexivity.
  - apply calm_is_calm.
  - right; right; left. reflexivity.
  - reflexivity.
  - intros y [<- | [<- | [<- | [<- | []]]]] Hm; try discriminate Hm;
      first [left; reflexivity | right; reflexivity].
Defined.

Lemma ingresar_then_ultima_witness :
  fst (ultima demo "1" calm
         (snd (ingresar demo lectura_ABC calm (boot db_una_lectura)))) =
    Ok (res_ext 200
          (Lectura
             {| l_fecha_hora := 101; l_temp_ambiente := 24.5%float;
                l_humedad_ambiente := 60%float;
                l_humedad_suelo := 40%float |})).
Proof.
  apply (ingresar_then_ultima demo lectura_ABC "1" calm (boot db_una_lectura)
           fila_ABC eq_refl).
  - exists [], []. split; [reflexivity|]. split; [intros ? [] | reflexivity].
  - reflexivity.
  - reflexivity.
  - intros x [<- | []] _. reflexivity.
  - apply calm_is_calm.
Defined.

Lemma actualizar_400_iff_witness :
  (exists resp,
     fst (actualizar demo "1" actuador_bomba calm (boot db_ABC)) = Ok resp /\
     status resp = 400 /\
     snd (actualizar demo "1" actuador_bomba calm (boot db_ABC)) = boot db_ABC)
  /\
  (forall resp,
     fst (actualizar demo "1" riego_off calm (boot db_ABC)) = Ok resp ->
     status resp <> 400).
Proof.
  split.
  - apply (actualizar_400_iff demo "1" actuador_bomba calm (boot db_ABC)).
    reflexivity.
  - apply (actualizar_400_iff demo "1" riego_off calm (boot db_ABC)).
    reflexivity.
Defined.

Lemma actualizar_inherited_name_witness :
  fst (actualizar demo "1" actuador_constructor calm (boot db_ABC)) =
    Ok (res_status_json 500 (Error "Error al actualizar el estado de control."))
  /\ tick (snd (actualizar demo "1" actuador_constructor calm (boot db_ABC)))
     = 1%nat
  /\ store (snd (actualizar demo "1" actuador_constructor calm (boot db_ABC)))
     = db_ABC.
Proof.
  apply (actualizar_inherited_name demo "1" actuador_constructor calm
           (boot db_ABC) "constructor" eq_refl).
  - left. reflexivity.
  - reflexivity.
Defined.

Lemma actualizar_then_estado_witness :
  fst (estado demo "ABC" calm
         (snd (actualizar demo "1" riego_on calm (boot db_ABC)))) =
    Ok (res_status_json 200 (Estado false true false)).
Proof.
  apply (actualizar_then_estado demo "1" "ABC" riego_on calm (boot db_ABC)
           riego_campo fila_ABC estado_ABC eq_refl eq_refl eq_refl
           fila_ABC_is_device estado_ABC_is_control_state eq_refl
           (calm_is_calm _ _)).
Defined.

Lemma actualizar_idempotent_witness :
  map (get_campo riego_campo)
      (estado_control
         (store (snd (actualizar demo "1" riego_on calm
                        (snd (actualizar demo "1" riego_on calm
                                (boot db_ABC))))))) =
    map (get_campo riego_campo)
      (estado_control
         (store (snd (actualizar demo "1" riego_on calm (boot db_ABC))))).
Proof.
  apply (actualizar_idempotent demo "1" riego_on calm (boot db_ABC)
           riego_campo riego_campo eq_refl eq_refl eq_refl (calm_is_calm _ _)).
Defined.

Lemma actualizar_commute_witness :
  store (snd (actualizar demo "1" luces_on calm
                (snd (actualizar demo "1" riego_on calm (boot db_ABC))))) =
  store (snd (actualizar demo "1" riego_on calm
                (snd (actualizar demo "1" luces_on calm (boot db_ABC))))).
Proof.
  apply (actualizar_commute demo "1" riego_on luces_on calm (boot db_ABC)
           riego_campo luces_campo eq_refl eq_refl eq_refl eq_refl eq_refl
           eq_refl).
  - discriminate.
  - apply calm_is_calm.
Defined.

Lemma serve_read_only_witness :
  store (world_of
           (snd (serve demo demo_bcrypt (GET_data_historico "1" JUndefined)
                   (failing_at 0 ER_LOCK_WAIT_TIMEOUT)
                   (boot_site db_lecturas [maria])))) = db_lecturas /\
  usuarios
    (snd (serve demo demo_bcrypt (GET_data_historico "1" JUndefined)
            (failing_at 0 ER_LOCK_WAIT_TIMEOUT)
            (boot_site db_lecturas [maria]))) = [maria].
Proof.
  apply (serve_read_only demo demo_bcrypt (GET_data_historico "1" JUndefined)
           (failing_at 0 ER_LOCK_WAIT_TIMEOUT) (boot_site db_lecturas [maria])).
  reflexivity.
Defined.

Lemma serve_always_answers_witness :
  (exists resp,
     fst (serve demo demo_bcrypt (POST_data_ingresar lectura_ABC)
            (failing_from 1 ER_LOCK_WAIT_TIMEOUT) (boot_site db_ABC [])) =
       Ok resp) /\
  (exists e,
     fst (serve demo demo_bcrypt (PUT_control_actualizar "1" actuador_sin_texto)
            calm (boot_site db_ABC [])) =
       Throw e).
Proof.
  split.
  - apply (serve_always_answers demo demo_bcrypt
             (POST_data_ingresar lectura_ABC)
             (failing_from 1 ER_LOCK_WAIT_TIMEOUT) (boot_site db_ABC []));
      [intros body; discriminate | reflexivity].
  - apply (serve_always_answers demo demo_bcrypt
             (PUT_control_actualizar "1" actuador_sin_texto)
             calm (boot_site db_ABC []));
      [intros body; discriminate | reflexivity].
Defined.

Lemma serve_fault_first_witness :
  store (world_of
           (snd (serve demo demo_bcrypt (POST_invernaderos_crear alta)
                   (failing_at 0 ER_LOCK_WAIT_TIMEOUT)
                   (boot_site empty_db [])))) = empty_db /\
  usuarios
    (snd (serve demo demo_bcrypt (POST_invernaderos_crear alta)
            (failing_at 0 ER_LOCK_WAIT_TIMEOUT) (boot_site empty_db [])))
    = [] /\
  (forall resp,
     fst (serve demo demo_bcrypt (POST_invernaderos_crear alta)
            (failing_at 0 ER_LOCK_WAIT_TIMEOUT) (boot_site empty_db [])) =
       Ok resp ->
     status_ext resp = 400 \/ status_ext resp = 500) /\
  (raises_before_try (POST_invernaderos_crear alta) = false ->
   exists resp,
     fst (serve demo demo_bcrypt (POST_invernaderos_crear alta)
            (failing_at 0 ER_LOCK_WAIT_TIMEOUT) (boot_site empty_db [])) =
       Ok resp).
Proof.
  apply (serve_fault_first demo demo_bcrypt (POST_invernaderos_crear alta)
           (failing_at 0 ER_LOCK_WAIT_TIMEOUT) (boot_site empty_db [])).
  discriminate.
Defined.


Lemma register_conflict_witness :
  fst (register demo demo_bcrypt alta_maria calm (boot_site empty_db [maria])) =
    Ok (res_ext 409 (Core (Message "El correo electrónico ya está registrado.")))
  /\
  usuarios (snd (register demo demo_bcrypt alta_maria calm
                   (boot_site empty_db [maria]))) = [maria].
Proof.
  apply (register_conflict demo demo_bcrypt alta_maria calm
           (boot_site empty_db [maria]) eq_refl eq_refl eq_refl).
  - exists maria. split; [left; reflexivity | reflexivity].
  - reflexivity.
Defined.

Lemma register_then_login_witness :
  fst (login demo demo_bcrypt alta_maria calm
         (snd (register demo demo_bcrypt alta_maria calm
                 (boot_site empty_db [])))) =
    Ok (res_ext 200 (Sesion "Inicio de sesión exitoso." 1 "fake-jwt-token-")).
Proof.
  apply (register_then_login demo demo_bcrypt alta_maria calm
           (boot_site empty_db []) "$2a$10$s4lt" "$2a$10$s4lt.secreto"
           eq_refl eq_refl eq_refl).
  - intros u [].
  - reflexivity.
  - reflexivity.
  - reflexivity.
  - reflexivity.
  - apply calm_is_calm.
Defined.

Lemma login_same_401_witness :
  match
    fst (login demo demo_bcrypt
           [ ("email", JStr "maria@example.org"); ("password", JStr "otra") ]
           calm (boot_site empty_db [maria]))
  with
  | Ok resp => resp
  | Throw _ => res_ext 500 (Core (Error "Error interno del servidor."))
  end
  =
  match
    fst (login demo demo_bcrypt
           [ ("email", JStr "nadie@example.org"); ("password", JStr "otra") ]
           calm (boot_site empty_db [maria]))
  with
  | Ok resp => resp
  | Throw _ => res_ext 500 (Core (Error "Error interno del servidor."))
  end.
Proof.
  transitivity (res_ext 401 (Core (Error "Credenciales inválidas."))).
  - apply (login_same_401 demo demo_bcrypt
             [ ("email", JStr "maria@example.org"); ("password", JStr "otra") ]
             calm (boot_site empty_db [maria])); reflexivity.
  - symmetry.
    apply (login_same_401 demo demo_bcrypt
             [ ("email", JStr "nadie@example.org"); ("password", JStr "otra") ]
             calm (boot_site empty_db [maria])); reflexivity.
Defined.

Lemma login_200_only_if_match_witness :
  exists u,
    In u [maria] /\
    text_eq demo (email u) (JStr "maria@example.org") = true /\
    bcrypt_compare demo_bcrypt (JStr "secreto") (password_hash u) = Ok true /\
    res_ext 200 (Sesion "Inicio de sesión exitoso." 1 "fake-jwt-token-") =
      res_ext 200
        (Sesion "Inicio de sesión exitoso." (u_id_usuario u) "fake-jwt-token-").
Proof.
  apply (login_200_only_if_match demo demo_bcrypt alta_maria calm
           (boot_site empty_db [maria])); reflexivity.
Defined.
